(** * Pagination core of the TipTap pagination plugin

    A shallow embedding of
    - [src/hooks/use-editor-height.ts]   (metrics pass, [calculatePageBreaks]),
    - [src/hooks/use-page-break-manager.ts] (debounced pass, [recalculate]),
    - [src/components/tiptap-extension/page-break-extension.ts]
      ([removeAllPageBreaks]),
    followed by the properties the specification states about them.

    Numbers.  JavaScript numbers are binary64 floating-point numbers.
    Pixel heights come from [offsetHeight] / [scrollHeight] and document
    positions from ProseMirror, all of which are integers, and the page
    height the hooks pass is the integer constant [PAGE_HEIGHT]; on
    integers below 2^53 binary64 addition is exact, and there the code is
    modelled over [Z] (module [Planner] and everything built on it).
    [calculatePageBreaks] is exported and accepts any number as
    [pageHeight]: module [PlannerF] transcribes it on binary64 as well, for
    what holds or fails of fractional values. *)

From Stdlib Require Import ZArith List Bool Lia String PrimFloat.
Import ListNotations.
Local Open Scope Z_scope.

(* ================================================================== *)
(** ** Data model ([use-editor-height.ts], lines 4-34) *)
(* ================================================================== *)

(** A4 page height at 96 DPI. *)
Definition PAGE_HEIGHT : Z := 1123.

(** One element of [EditorHeightMetrics['nodeHeights']]. *)
Record NodeHeight : Type := mkNodeHeight {
  type : string;   (* node.type.name *)
  height : Z;
  top : Z;
  pos : Z          (* position in document *)
}.

Record EditorHeightMetrics : Type := mkMetrics {
  contentHeight : Z;
  pageCount : Z;
  isOverflowing : bool;
  overflowAmount : Z;
  nodeHeights : list NodeHeight
}.

Record PageBreakPosition : Type := mkBreak {
  pageNumber : Z;      (* page number that ends at this break *)
  position : Z;        (* pixel position where the break occurs *)
  insertPos : Z;       (* document position to insert the break at *)
  afterNodeIndex : Z   (* index of the node after which to insert *)
}.

(* ================================================================== *)
(** ** The planner: [calculatePageBreaks] (lines 39-78) *)
(* ================================================================== *)

Module Planner.

(** The three mutable locals of [calculatePageBreaks]. *)
Record Locals : Type := mkLocals {
  breaks : list PageBreakPosition;
  curPageNumber : Z;      (* [let pageNumber]     *)
  currentPageEnd : Z      (* [let currentPageEnd] *)
}.

(** [const nodeBottom = node.top + node.height]. *)
Definition nodeBottom (node : NodeHeight) : Z := top node + height node.

(** [breaks.push({...}); pageNumber++; currentPageEnd += pageHeight]. *)
Definition pushBreak (pageHeight : Z) (ins after : Z) (st : Locals) : Locals :=
  {| breaks := breaks st ++
                 [ {| pageNumber := curPageNumber st;
                      position := currentPageEnd st;
                      insertPos := ins;
                      afterNodeIndex := after |} ];
     curPageNumber := curPageNumber st + 1;
     currentPageEnd := currentPageEnd st + pageHeight |}.

(** The inner [while (nodeBottom > currentPageEnd)] loop (lines 64-73).
    JavaScript's [while] has no bound of its own, so the loop takes fuel:
    [None] means the fuel ran out before the condition became false. *)
Fixpoint whileTaller (fuel : nat) (pageHeight : Z) (node : NodeHeight)
    (index : Z) (st : Locals) : option Locals :=
  match fuel with
  | O => None
  | S fuel' =>
      if nodeBottom node >? currentPageEnd st then
        whileTaller fuel' pageHeight node index
          (pushBreak pageHeight (pos node + height node) index st)
      else Some st
  end.

(** The body of the [forEach] callback (lines 47-75). *)
Definition visitNode (fuel : nat) (pageHeight : Z) (node : NodeHeight)
    (index : Z) (st : Locals) : option Locals :=
  if nodeBottom node >? currentPageEnd st then
    whileTaller fuel pageHeight node index
      (pushBreak pageHeight (pos node) (index - 1) st)
  else Some st.

(** [nodeHeights.forEach((node, index) => ...)], from index [index] on. *)
Fixpoint forEachNode (fuel : nat) (pageHeight : Z) (nodes : list NodeHeight)
    (index : Z) (st : Locals) : option Locals :=
  match nodes with
  | [] => Some st
  | node :: rest =>
      match visitNode fuel pageHeight node index st with
      | None => None
      | Some st' => forEachNode fuel pageHeight rest (index + 1) st'
      end
  end.

Definition initLocals (pageHeight : Z) : Locals :=
  {| breaks := []; curPageNumber := 1; currentPageEnd := pageHeight |}.

Definition calculatePageBreaks (fuel : nat) (nodeHeights : list NodeHeight)
    (pageHeight : Z) : option (list PageBreakPosition) :=
  option_map breaks (forEachNode fuel pageHeight nodeHeights 0 (initLocals pageHeight)).

(** [returns nodes ph plan]: the call [calculatePageBreaks(nodes, ph)]
    terminates and returns [plan]. *)
Definition returns (nodeHeights : list NodeHeight) (pageHeight : Z)
    (plan : list PageBreakPosition) : Prop :=
  exists fuel, calculatePageBreaks fuel nodeHeights pageHeight = Some plan.

End Planner.

Import Planner.

(* ================================================================== *)
(** ** The planner on binary64 numbers (the same lines 39-78) *)
(* ================================================================== *)

(** The same function with every [number] a binary64 value and every [+],
    [-] and [>] the IEEE 754 operation, as JavaScript evaluates them. *)
Module PlannerF.

Record NodeHeight : Type := mkNodeHeight {
  type : string;
  height : float;
  top : float;
  pos : float
}.

Record PageBreakPosition : Type := mkBreak {
  pageNumber : float;
  position : float;
  insertPos : float;
  afterNodeIndex : float
}.

Record Locals : Type := mkLocals {
  breaks : list PageBreakPosition;
  curPageNumber : float;      (* [let pageNumber]     *)
  currentPageEnd : float      (* [let currentPageEnd] *)
}.

(** [const nodeBottom = node.top + node.height]. *)
Definition nodeBottom (node : NodeHeight) : float :=
  PrimFloat.add (top node) (height node).

(** [nodeBottom > currentPageEnd]. *)
Definition crosses (node : NodeHeight) (st : Locals) : bool :=
  PrimFloat.ltb (currentPageEnd st) (nodeBottom node).

(** [breaks.push({...}); pageNumber++; currentPageEnd += pageHeight]. *)
Definition pushBreak (pageHeight : float) (ins after : float) (st : Locals)
    : Locals :=
  {| breaks := breaks st ++
                 [ {| pageNumber := curPageNumber st;
                      position := currentPageEnd st;
                      insertPos := ins;
                      afterNodeIndex := after |} ];
     curPageNumber := PrimFloat.add (curPageNumber st) 1%float;
     currentPageEnd := PrimFloat.add (currentPageEnd st) pageHeight |}.

(** The inner [while] loop (lines 64-73), with fuel. *)
Fixpoint whileTaller (fuel : nat) (pageHeight : float) (node : NodeHeight)
    (index : float) (st : Locals) : option Locals :=
  match fuel with
  | O => None
  | S fuel' =>
      if crosses node st then
        whileTaller fuel' pageHeight node index
          (pushBreak pageHeight (PrimFloat.add (pos node) (height node)) index st)
      else Some st
  end.

(** The body of the [forEach] callback (lines 47-75). *)
Definition visitNode (fuel : nat) (pageHeight : float) (node : NodeHeight)
    (index : float) (st : Locals) : option Locals :=
  if crosses node st then
    whileTaller fuel pageHeight node index
      (pushBreak pageHeight (pos node) (PrimFloat.sub index 1%float) st)
  else Some st.

Fixpoint forEachNode (fuel : nat) (pageHeight : float) (nodes : list NodeHeight)
    (index : float) (st : Locals) : option Locals :=
  match nodes with
  | [] => Some st
  | node :: rest =>
      match visitNode fuel pageHeight node index st with
      | None => None
      | Some st' =>
          forEachNode fuel pageHeight rest (PrimFloat.add index 1%float) st'
      end
  end.

Definition initLocals (pageHeight : float) : Locals :=
  {| breaks := []; curPageNumber := 1%float; currentPageEnd := pageHeight |}.

Definition calculatePageBreaks (fuel : nat) (nodeHeights : list NodeHeight)
    (pageHeight : float) : option (list PageBreakPosition) :=
  option_map breaks
    (forEachNode fuel pageHeight nodeHeights 0%float (initLocals pageHeight)).

Definition returns (nodeHeights : list NodeHeight) (pageHeight : float)
    (plan : list PageBreakPosition) : Prop :=
  exists fuel, calculatePageBreaks fuel nodeHeights pageHeight = Some plan.




End PlannerF.

(* ================================================================== *)
(** ** The editor document (ProseMirror side of the contract) *)
(* ================================================================== *)

(** The host editor is a third-party collaborator.  What the repository
    relies on is ProseMirror's addressing scheme: a leaf occupies one
    position, a text run one position per character, a non-leaf node its
    content plus an opening and a closing token; [descendants] visits every
    node below the root in document order with its position.  The node
    types are those of the StarterKit schema plus the [pageBreak] atom that
    [page-break-extension.ts] registers ([group: 'block'], [atom: true], no
    content, hence a leaf). *)

Module Doc.

Inductive BranchType : Type :=
| DocRoot | Paragraph | Heading | Blockquote | BulletList | OrderedList
| ListItem | CodeBlock.

#[local] Set Warnings "-register-all".
Inductive PMNode : Type :=
| Text (len : positive)            (* inline text run *)
| HardBreak                        (* inline leaf *)
| HorizontalRule                   (* block leaf *)
| PageBreak (pageNumberAttr : Z)   (* the marker node, attrs.pageNumber *)
| Branch (ty : BranchType) (content : list PMNode).

Definition branchName (ty : BranchType) : string :=
  match ty with
  | DocRoot => "doc" | Paragraph => "paragraph" | Heading => "heading"
  | Blockquote => "blockquote" | BulletList => "bulletList"
  | OrderedList => "orderedList" | ListItem => "listItem"
  | CodeBlock => "codeBlock"
  end.

(** [node.type.name]. *)
Definition typeName (n : PMNode) : string :=
  match n with
  | Text _ => "text"
  | HardBreak => "hardBreak"
  | HorizontalRule => "horizontalRule"
  | PageBreak _ => "pageBreak"
  | Branch ty _ => branchName ty
  end.

(** [node.isBlock]. *)
Definition isBlock (n : PMNode) : bool :=
  match n with
  | Text _ | HardBreak => false
  | _ => true
  end.

(** [node.type.name === 'pageBreak']. *)
Definition isPageBreak (n : PMNode) : bool := String.eqb (typeName n) "pageBreak".

Definition sumZ (l : list Z) : Z := fold_right Z.add 0 l.

(** [node.nodeSize]. *)
Fixpoint nodeSize (n : PMNode) : Z :=
  match n with
  | Text len => Z.pos len
  | HardBreak | HorizontalRule | PageBreak _ => 1
  | Branch _ c => 2 + sumZ (map nodeSize c)
  end.

(** [node.content.size]. *)
Definition contentSize (c : list PMNode) : Z := sumZ (map nodeSize c).

Definition content (n : PMNode) : list PMNode :=
  match n with
  | Branch _ c => c
  | _ => []
  end.

(** The nodes of a fragment starting at position [start], each followed by
    its own descendants. *)
Definition fragmentDescendants (below : PMNode -> Z -> list (PMNode * Z)) :=
  fix go (c : list PMNode) (start : Z) {struct c} : list (PMNode * Z) :=
    match c with
    | [] => []
    | x :: r => (x, start) :: below x (start + 1) ++ go r (start + nodeSize x)
    end.

(** [nodesBelow n start]: the descendants of [n], whose content begins at
    position [start], in document order. *)
Fixpoint nodesBelow (n : PMNode) (start : Z) {struct n} : list (PMNode * Z) :=
  match n with
  | Branch _ c => fragmentDescendants nodesBelow c start
  | _ => []
  end.

(** [doc.descendants((node, pos) => ...)] with a callback that never returns
    [false]: the callback is folded over the visited nodes. *)
Definition descendants {A : Type} (doc : PMNode) (f : A -> PMNode * Z -> A)
    (init : A) : A :=
  fold_left f (nodesBelow doc 0) init.

(** What ProseMirror puts into a node of type [ty] whose content a
    replacement has left empty, so that the node conforms to the StarterKit
    schema again: [doc] and [blockquote] hold [block+], a list item holds
    [paragraph block*], a list holds list items; textblocks may be empty. *)
Definition fillEmpty (ty : BranchType) : list PMNode :=
  match ty with
  | DocRoot | Blockquote | ListItem => [Branch Paragraph []]
  | BulletList | OrderedList => [Branch ListItem [Branch Paragraph []]]
  | Paragraph | Heading | CodeBlock => []
  end.

Definition refill (ty : BranchType) (c : list PMNode) : list PMNode :=
  match c with
  | [] => fillEmpty ty
  | _ => c
  end.

(** [tr.delete(from, to)] on a fragment, for documents that conform to the
    schema.  Only the ranges the repository passes are modelled: a range
    covering exactly one node, at any depth.  Every other range is outside
    the model ([None]).  Where the deleted node was the only child of its
    parent, the parent is refilled ([refill]): deleting the marker of
    [doc(pageBreak)] leaves [doc(paragraph)]. *)
Definition fragmentDelete (inside : PMNode -> Z -> Z -> option PMNode) :=
  fix go (c : list PMNode) (from to : Z) {struct c} : option (list PMNode) :=
    match c with
    | [] => None
    | x :: r =>
        let sz := nodeSize x in
        if (from =? 0) && (to =? sz) then Some r
        else if sz <=? from then option_map (cons x) (go r (from - sz) (to - sz))
        else if (0 <? from) && (to <? sz)
             then option_map (fun x' => x' :: r) (inside x (from - 1) (to - 1))
             else None
    end.

(** Positions are relative to the start of [n]'s content. *)
Fixpoint deleteInside (n : PMNode) (from to : Z) {struct n} : option PMNode :=
  match n with
  | Branch ty c =>
      option_map (fun c' => Branch ty (refill ty c'))
        (fragmentDelete deleteInside c from to)
  | _ => None
  end.

Definition tr_delete (from to : Z) (doc : PMNode) : option PMNode :=
  deleteInside doc from to.

(** *** [removeAllPageBreaks] ([page-break-extension.ts], lines 94-113) *)

(** The callback of [doc.descendants] at line 101. *)
Definition collectPageBreak (pageBreaks : list (Z * Z)) (np : PMNode * Z)
    : list (Z * Z) :=
  let (node, pos) := np in
  if isPageBreak node then pageBreaks ++ [(pos, nodeSize node)] else pageBreaks.

Definition findPageBreaks (doc : PMNode) : list (Z * Z) :=
  descendants doc collectPageBreak [].

(** The [{pos, size}] entries of the markers among visited nodes. *)
Definition markersOf (visited : list (PMNode * Z)) : list (Z * Z) :=
  map (fun np => (snd np, nodeSize (fst np)))
      (filter (fun np => isPageBreak (fst np)) visited).

(** Markers of a node's subtree and of a fragment, by position of the
    content start. *)
Definition below (n : PMNode) (s : Z) : list (Z * Z) := markersOf (nodesBelow n s).
Definition within (c : list PMNode) (s : Z) : list (Z * Z) :=
  markersOf (fragmentDescendants nodesBelow c s).

(** [forEach(({pos, size}) => tr.delete(pos, pos + size))] on a
    transaction whose current document is threaded through. *)
Fixpoint deleteEach (l : list (Z * Z)) (doc : PMNode) : option PMNode :=
  match l with
  | [] => Some doc
  | (pos, size) :: rest =>
      match tr_delete pos (pos + size) doc with
      | Some doc' => deleteEach rest doc'
      | None => None
      end
  end.

Definition removeAllPageBreaks (doc : PMNode) : option PMNode :=
  deleteEach (rev (findPageBreaks doc)) doc.

(** *** A reference [insertContentAt]

    [insertContentAt(pos, {type: 'pageBreak', attrs: {pageNumber}})] puts
    the marker into the gap at [pos].  [None] stands for the call
    throwing.  This reference editor agrees with TipTap on two kinds of
    position only:
    - a position outside [0 .. doc.content.size], where ProseMirror's
      [resolve] throws a [RangeError];
    - a gap between the children of a node that takes blocks ([doc],
      [blockquote], a list item), where the marker becomes a child of that
      node.
    Everywhere else it does not follow TipTap: inside a text run it
    refuses, where TipTap splits the textblock around the marker; at a gap
    inside a textblock or a list it nests the marker, where TipTap splits
    the textblock (leaving an empty one at its start) or the list; and in
    an empty textblock it nests the marker, where TipTap replaces the
    textblock by the marker.  Nothing below is stated of such positions:
    the properties of the reconciler are proved for every [Editor], and
    this one serves for runs at positions of the two kinds above. *)
Definition fragmentInsert (inside : PMNode -> Z -> option PMNode) (m : PMNode) :=
  fix go (c : list PMNode) (at_ : Z) {struct c} : option (list PMNode) :=
    if at_ =? 0 then Some (m :: c)
    else match c with
         | [] => None
         | x :: r =>
             let sz := nodeSize x in
             if sz <=? at_ then option_map (cons x) (go r (at_ - sz))
             else option_map (fun x' => x' :: r) (inside x (at_ - 1))
         end.

Fixpoint insertInside (m : PMNode) (n : PMNode) (at_ : Z) {struct n}
    : option PMNode :=
  match n with
  | Branch ty c => option_map (Branch ty) (fragmentInsert (insertInside m) m c at_)
  | _ => None
  end.

Definition insertContentAt (at_ : Z) (pageNumberAttr : Z) (doc : PMNode)
    : option PMNode :=
  insertInside (PageBreak pageNumberAttr) doc at_.

End Doc.

(* ================================================================== *)
(** ** The metrics pass: [updateMetrics] ([use-editor-height.ts], 96-131) *)
(* ================================================================== *)

Module Metrics.

(** What the pass reads from [editor]: the document, the [scrollHeight] of
    the editor element, and [editor.view.nodeDOM(pos)].  [nodeDOM pos] is
    [Some h] when the call yields an [HTMLElement] whose [offsetHeight] is
    [h], and [None] when it yields [null] or a DOM node that is not an
    [HTMLElement]. *)
Record EditorView : Type := mkView {
  doc : Doc.PMNode;
  scrollHeight : Z;
  nodeDOM : Z -> option Z
}.

(** The two locals the [descendants] callback updates. *)
Record Collected : Type := mkCollected {
  collectedHeights : list NodeHeight;   (* [nodeHeights]      *)
  cumulativeHeight : Z                  (* [cumulativeHeight] *)
}.

(** The callback of [editor.state.doc.descendants] (lines 109-123). *)
Definition measureNode (view : EditorView) (acc : Collected)
    (np : Doc.PMNode * Z) : Collected :=
  let (node, pos) := np in
  if Doc.isBlock node && negb (String.eqb (Doc.typeName node) "pageBreak") then
    match nodeDOM view pos with
    | Some height =>
        {| collectedHeights :=
             collectedHeights acc ++
               [ {| type := Doc.typeName node;
                    height := height;
                    top := cumulativeHeight acc;
                    pos := pos |} ];
           cumulativeHeight := cumulativeHeight acc + height |}
    | None => acc
    end
  else acc.

(** [Math.ceil(a / b)] on integers, for [b > 0]. *)
Definition ceilDiv (a b : Z) : Z := - ((- a) / b).

(** The snapshot handed to [setMetrics]. *)
Definition updateMetrics (view : EditorView) : EditorHeightMetrics :=
  let contentHeight := scrollHeight view in
  {| contentHeight := contentHeight;
     pageCount := ceilDiv contentHeight PAGE_HEIGHT;
     isOverflowing := contentHeight >? PAGE_HEIGHT;
     overflowAmount := Z.max 0 (contentHeight - PAGE_HEIGHT);
     nodeHeights :=
       collectedHeights
         (Doc.descendants (doc view) (measureNode view)
            {| collectedHeights := []; cumulativeHeight := 0 |}) |}.

(** The same view with every missing element replaced by an element of
    height 0. *)
Definition missingAsZero (view : EditorView) : EditorView :=
  {| doc := doc view;
     scrollHeight := scrollHeight view;
     nodeDOM := fun pos => match nodeDOM view pos with
                           | Some h => Some h
                           | None => Some 0
                           end |}.

Definition rendered (view : EditorView) (r : NodeHeight) : bool :=
  match nodeDOM view (pos r) with
  | Some _ => true
  | None => false
  end.

End Metrics.

(* ================================================================== *)
(** ** The reconciler ([use-page-break-manager.ts]) *)
(* ================================================================== *)

(** The two chained commands the hook runs through [editor.chain()...run()].
    [None] stands for the call throwing.  [focus()] only moves the
    selection and is left out. *)
Class Editor (D : Type) : Type := {
  (** [editor.chain().focus().removeAllPageBreaks().run()] *)
  runRemoveAllPageBreaks : D -> option D;
  (** [editor.chain().insertContentAt(pos, {type: 'pageBreak',
      attrs: {pageNumber}}).run()] *)
  runInsertContentAt : Z -> Z -> D -> option D;
  (** positions of the [pageBreak] nodes in [editor.state.doc] *)
  pageBreakPositions : D -> list Z
}.

Module Manager.

Inductive LogEntry : Type :=
| UpdatingPageBreaks (old new : nat) (positions : list Z)  (* console.log, line 46 *)
| FailedToInsert.                                          (* console.error, line 68 *)

(** Commands issued to the editor, in order.  This history is ghost state:
    nothing reads it; it records which calls a pass attempted. *)
Inductive EditorCall : Type :=
| CallRemoveAll
| CallInsert (insertPos pageNumber : Z).

Inductive Completion : Type :=
| Completed   (* the code ran to its end *)
| Threw.      (* an exception left it *)

Section WithEditor.

Context {D : Type} {E : Editor D}.

(** What the hook's code reads and writes: the live document, the
    [lastBreakCountRef] ref, the console and the call history. *)
Record Hook : Type := mkHook {
  document : D;
  lastBreakCountRef : nat;
  console : list LogEntry;
  calls : list EditorCall
}.

(** Statements of the hook: state transformers that may throw. *)
Definition Cmd : Type := Hook -> Completion * Hook.

Definition skip : Cmd := fun h => (Completed, h).

Definition seq (c1 c2 : Cmd) : Cmd :=
  fun h => match c1 h with
           | (Completed, h') => c2 h'
           | (Threw, h') => (Threw, h')
           end.

(** [try { c } catch (error) { handler }]. *)
Definition tryCatch (c handler : Cmd) : Cmd :=
  fun h => match c h with
           | (Completed, h') => (Completed, h')
           | (Threw, h') => handler h'
           end.

(** [xs.forEach(f)]: an exception thrown by [f] ends the iteration. *)
Fixpoint forEach {A : Type} (f : A -> Cmd) (xs : list A) : Cmd :=
  match xs with
  | [] => skip
  | x :: rest => seq (f x) (forEach f rest)
  end.

Definition log (e : LogEntry) : Cmd :=
  fun h => (Completed,
            {| document := document h; lastBreakCountRef := lastBreakCountRef h;
               console := console h ++ [e]; calls := calls h |}).

Definition setLastBreakCount (n : nat) : Cmd :=
  fun h => (Completed,
            {| document := document h; lastBreakCountRef := n;
               console := console h; calls := calls h |}).

(** One chained editor command: the call is recorded, then either the
    transaction is applied to the document or the call throws. *)
Definition runChain (call : EditorCall) (run : D -> option D) : Cmd :=
  fun h =>
    let h' := {| document := document h; lastBreakCountRef := lastBreakCountRef h;
                 console := console h; calls := calls h ++ [call] |} in
    match run (document h) with
    | Some d => (Completed,
                 {| document := d; lastBreakCountRef := lastBreakCountRef h';
                    console := console h'; calls := calls h' |})
    | None => (Threw, h')
    end.

Definition removeAll : Cmd := runChain CallRemoveAll runRemoveAllPageBreaks.

Definition insertBreak (breakPoint : PageBreakPosition) : Cmd :=
  runChain (CallInsert (insertPos breakPoint) (pageNumber breakPoint))
    (runInsertContentAt (insertPos breakPoint) (pageNumber breakPoint)).

(** Commands that leave [lastBreakCountRef] alone. *)
Definition keepsCount (c : Cmd) : Prop :=
  forall h, lastBreakCountRef (snd (c h)) = lastBreakCountRef h.

(** The body of the [setTimeout] callback (lines 33-74), after
    [const breaks = calculatePageBreaks(heightMetrics.nodeHeights)] has
    returned [breaks]. *)
Definition debouncedPass (breaks : list PageBreakPosition) : Cmd :=
  fun h =>
    let currentBreaks := pageBreakPositions (document h) in   (* never read *)
    if negb (Nat.eqb (List.length breaks) (lastBreakCountRef h)) then
      seq (log (UpdatingPageBreaks (lastBreakCountRef h) (List.length breaks)
                  (map position breaks)))
        (seq removeAll
           (seq (forEach (fun breakPoint =>
                            tryCatch (insertBreak breakPoint) (log FailedToInsert))
                   breaks)
              (setLastBreakCount (List.length breaks)))) h
    else skip h.

(** The body of [recalculate] (lines 85-101), after [calculatePageBreaks]
    has returned [breaks], for a non-null [editor]. *)
Definition recalculate (breaks : list PageBreakPosition) : Cmd :=
  seq removeAll (forEach insertBreak breaks).

(** The whole callbacks, planner included: the planner is run on
    [heightMetrics.nodeHeights] with the default [PAGE_HEIGHT]. *)
Definition debouncedCallback (heightMetrics : EditorHeightMetrics)
    (h : Hook) (out : Completion * Hook) : Prop :=
  exists breaks,
    returns (nodeHeights heightMetrics) PAGE_HEIGHT breaks /\
    out = debouncedPass breaks h.

Definition recalculateCallback (heightMetrics : EditorHeightMetrics)
    (h : Hook) (out : Completion * Hook) : Prop :=
  exists breaks,
    returns (nodeHeights heightMetrics) PAGE_HEIGHT breaks /\
    out = recalculate breaks h.

End WithEditor.

Arguments Hook D : clear implicits.
Arguments Cmd D : clear implicits.

End Manager.

(** The reference editor over the document model above. *)
#[export] Instance treeEditor : Editor Doc.PMNode := {|
  runRemoveAllPageBreaks := Doc.removeAllPageBreaks;
  runInsertContentAt := Doc.insertContentAt;
  pageBreakPositions := fun d => map fst (Doc.findPageBreaks d)
|}.

(* ================================================================== *)
(** ** Vocabulary of the specification *)
(* ================================================================== *)

Module Spec.

(** The contiguity invariant of the data model: the first [top] is [t],
    every [top] is the previous [top] plus the previous [height], and every
    height is non-negative. *)
Fixpoint contiguousFrom (t : Z) (nodes : list NodeHeight) : bool :=
  match nodes with
  | [] => true
  | node :: rest =>
      (top node =? t) && (0 <=? height node) &&
      contiguousFrom (t + height node) rest
  end.

Definition contiguous (nodes : list NodeHeight) : bool := contiguousFrom 0 nodes.

(** Sum of all heights. *)
Definition sumHeights (nodes : list NodeHeight) : Z :=
  Doc.sumZ (map height nodes).

(** [floor(contentHeight / pageHeight)], where a content height landing
    exactly on a boundary does not count as crossing that boundary. *)
Definition strictCrossings (contentHeight pageHeight : Z) : Z :=
  if (0 <? contentHeight) && (contentHeight mod pageHeight =? 0)
  then contentHeight / pageHeight - 1
  else contentHeight / pageHeight.

(** Each element is smaller than the next one. *)
Fixpoint ascending (l : list Z) : bool :=
  match l with
  | a :: (b :: _) as rest => (a <? b) && ascending rest
  | _ => true
  end.

Definition heightsNonNegative (nodes : list NodeHeight) : bool :=
  forallb (fun node => 0 <=? height node) nodes.

(** No node is taller than a page. *)
Definition heightsAtMost (pageHeight : Z) (nodes : list NodeHeight) : bool :=
  forallb (fun node => height node <=? pageHeight) nodes.

(** State of the locals once all content above pixel [B] has been visited:
    the current page is the first whose end is not below [B]. *)
Definition countedUpTo (pageHeight B : Z) (st : Locals) : Prop :=
  0 <= B /\
  1 <= curPageNumber st /\
  currentPageEnd st = curPageNumber st * pageHeight /\
  Z.of_nat (List.length (breaks st)) = curPageNumber st - 1 /\
  B <= currentPageEnd st /\
  (curPageNumber st = 1 \/ (curPageNumber st - 1) * pageHeight < B).


(** JavaScript's [xs[i]] for an integer [i]; [None] stands for
    [undefined]. *)
Definition arrayAt {A : Type} (xs : list A) (i : Z) : option A :=
  if i <? 0 then None else nth_error xs (Z.to_nat i).

(** The sentence of the specification on the order of a plan: page numbers
    and insert positions both grow from each entry to the next. *)
Definition orderedPlan (plan : list PageBreakPosition) : Prop :=
  ascending (map pageNumber plan) = true /\
  ascending (map insertPos plan) = true.

(** The sentence of the specification on a node without a rendered
    element: the pass yields a record of height 0 for it. *)
Definition recordedWithHeightZero (view : Metrics.EditorView) (at_ : Z) : Prop :=
  exists r, In r (nodeHeights (Metrics.updateMetrics view)) /\
            pos r = at_ /\ height r = 0.

End Spec.

Import Spec.

(* ================================================================== *)
(** ** The debounce of the reconciler ([use-page-break-manager.ts], 21-31,
       76-81, 86-88) *)
(* ================================================================== *)

Module Scheduler.

(** The timers of the JavaScript runtime that this hook created and the
    [timeoutRef] ref.  A pending timer carries what its callback closes
    over, [heightMetrics.nodeHeights].  Timer handles are truthy, hence
    [positive]. *)
Record Timers : Type := mkTimers {
  timeoutRef : option positive;                        (* [undefined] = [None] *)
  pendingTimers : list (positive * list NodeHeight);
  nextHandle : positive
}.

Definition noTimers : Timers :=
  {| timeoutRef := None; pendingTimers := []; nextHandle := 1%positive |}.

(** [setTimeout(callback, debounceMs)]: a fresh handle, the timer pending. *)
Definition setTimeout (closure : list NodeHeight) (t : Timers) : positive * Timers :=
  (nextHandle t,
   {| timeoutRef := timeoutRef t;
      pendingTimers := pendingTimers t ++ [(nextHandle t, closure)];
      nextHandle := Pos.succ (nextHandle t) |}).

(** [clearTimeout(handle)]: nothing happens when the timer is gone. *)
Definition clearTimeout (handle : positive) (t : Timers) : Timers :=
  {| timeoutRef := timeoutRef t;
     pendingTimers := filter (fun e => negb (Pos.eqb (fst e) handle)) (pendingTimers t);
     nextHandle := nextHandle t |}.

(** [if (timeoutRef.current) { clearTimeout(timeoutRef.current); }], the
    text of lines 28-30, 77-79 and 86-88. *)
Definition clearCurrent (t : Timers) : Timers :=
  match timeoutRef t with
  | Some handle => clearTimeout handle t
  | None => t
  end.

(** The body of the effect (lines 24-81).  [editor] is [true] for a
    non-null editor.  The boolean tells whether a cleanup function was
    returned. *)
Definition effect (editor autoInsert : bool) (nodeHeights : list NodeHeight)
    (t : Timers) : Timers * bool :=
  if negb editor || negb autoInsert then (t, false)
  else
    let t1 := clearCurrent t in
    let (handle, t2) := setTimeout nodeHeights t1 in
    ({| timeoutRef := Some handle;
        pendingTimers := pendingTimers t2;
        nextHandle := nextHandle t2 |}, true).

(** The cleanup function returned at lines 76-80. *)
Definition cleanup (t : Timers) : Timers := clearCurrent t.

(** The runtime runs the callback of a pending timer: the timer is no
    longer pending and its closure is what the callback plans from. *)
Definition timerFires (handle : positive) (t : Timers)
    : option (list NodeHeight) * Timers :=
  match find (fun e => Pos.eqb (fst e) handle) (pendingTimers t) with
  | Some e => (Some (snd e), clearTimeout handle t)
  | None => (None, t)
  end.

(** The mounted hook under React's effect protocol: when a dependency of
    the effect changes, the cleanup returned by the previous run (if any)
    runs before the effect runs again; on unmount the cleanup runs. *)
Record Mounted : Type := mkMounted {
  timers : Timers;
  hasCleanup : bool
}.

Inductive Event : Type :=
| DepsChanged (editor autoInsert : bool) (nodeHeights : list NodeHeight)
| TimerFires (handle : positive)
| Recalculate       (* the first statement of [recalculate], lines 86-88 *)
| Unmount.

Definition step (m : Mounted) (ev : Event) : Mounted :=
  match ev with
  | DepsChanged editor autoInsert nodeHeights =>
      let t := if hasCleanup m then cleanup (timers m) else timers m in
      let (t', returned) := effect editor autoInsert nodeHeights t in
      {| timers := t'; hasCleanup := returned |}
  | TimerFires handle =>
      {| timers := snd (timerFires handle (timers m)); hasCleanup := hasCleanup m |}
  | Recalculate =>
      {| timers := clearCurrent (timers m); hasCleanup := hasCleanup m |}
  | Unmount =>
      {| timers := if hasCleanup m then cleanup (timers m) else timers m;
         hasCleanup := false |}
  end.

Definition run (events : list Event) : Mounted :=
  fold_left step events {| timers := noTimers; hasCleanup := false |}.

(** What the latest change of dependencies asked to be planned: its
    [nodeHeights] when the effect was enabled, nothing otherwise. *)
Fixpoint latestTrigger (events : list Event) (seen : option (list NodeHeight))
    : option (list NodeHeight) :=
  match events with
  | [] => seen
  | DepsChanged editor autoInsert nodeHeights :: rest =>
      latestTrigger rest (if editor && autoInsert then Some nodeHeights else None)
  | _ :: rest => latestTrigger rest seen
  end.

(** What the hook keeps true of its timers: a pending timer is the one
    [timeoutRef] holds and carries [trigger]; there is at most one; and
    while one is pending a cleanup function is registered. *)
Definition tidy (m : Mounted) (trigger : option (list NodeHeight)) : Prop :=
  (forall handle closure,
      In (handle, closure) (pendingTimers (timers m)) ->
      timeoutRef (timers m) = Some handle /\ trigger = Some closure) /\
  (List.length (pendingTimers (timers m)) <= 1)%nat /\
  (pendingTimers (timers m) <> [] -> hasCleanup m = true).

(** The trigger after one more event. *)
Definition triggerAfter (ev : Event) (seen : option (list NodeHeight))
    : option (list NodeHeight) :=
  match ev with
  | DepsChanged editor autoInsert nodeHeights =>
      if editor && autoInsert then Some nodeHeights else None
  | _ => seen
  end.

End Scheduler.

(* ================================================================== *)
(** ** Further vocabulary *)
(* ================================================================== *)

Module More.


(** The nodes the metrics pass records: rendered blocks other than
    markers. *)
Definition measured (view : Metrics.EditorView) (np : Doc.PMNode * Z) : bool :=
  Doc.isBlock (fst np) &&
  negb (String.eqb (Doc.typeName (fst np)) "pageBreak") &&
  match Metrics.nodeDOM view (snd np) with Some _ => true | None => false end.

(** Insertions that failed, counted on the console. *)
Definition failuresLogged (console : list Manager.LogEntry) : nat :=
  List.length (filter (fun e => match e with
                                | Manager.FailedToInsert => true
                                | _ => false
                                end) console).

(** The history entry of one planned insertion. *)
Definition insertCall (b : PageBreakPosition) : Manager.EditorCall :=
  Manager.CallInsert (insertPos b) (pageNumber b).

(** Two hook states the editor cannot tell apart. *)
Definition sameEditor {D : Type} (h h' : Manager.Hook D) : Prop :=
  Manager.document h = Manager.document h' /\ Manager.calls h = Manager.calls h'.

(** The planned insertions made one after the other on a document, each
    on the result of the one before; [None] when one of them throws. *)
Fixpoint insertAll {D : Type} {E : Editor D} (breaks : list PageBreakPosition)
    (d : D) : option D :=
  match breaks with
  | [] => Some d
  | b :: rest =>
      match runInsertContentAt (insertPos b) (pageNumber b) d with
      | Some d' => insertAll rest d'
      | None => None
      end
  end.

(** The planned insertions made one after the other, an insertion that
    throws being passed over: the resulting document and the number of
    insertions that threw. *)
Fixpoint insertSkipping {D : Type} {E : Editor D}
    (breaks : list PageBreakPosition) (d : D) : D * nat :=
  match breaks with
  | [] => (d, 0%nat)
  | b :: rest =>
      match runInsertContentAt (insertPos b) (pageNumber b) d with
      | Some d' => insertSkipping rest d'
      | None => (fst (insertSkipping rest d), S (snd (insertSkipping rest d)))
      end
  end.

End More.

Import More.

(* ================================================================== *)
(** * Properties of the planner *)
(* ================================================================== *)

Section PlannerFacts.

Variable pageHeight : Z.

(** A rule for the inner loop: what every guarded push preserves holds at
    the exit, where the guard is false. *)
Lemma whileTaller_rule (P : Locals -> Prop) node index :
  (forall st, P st -> currentPageEnd st < nodeBottom node ->
              P (pushBreak pageHeight (pos node + height node) index st)) ->
  forall fuel st st',
    P st ->
    whileTaller fuel pageHeight node index st = Some st' ->
    P st' /\ nodeBottom node <= currentPageEnd st'.
Proof.
  intros Hstep fuel.
  induction fuel as [|fuel IH]; intros st st' HP Hrun; simpl in Hrun.
  - discriminate.
  - destruct (Z.gtb_spec (nodeBottom node) (currentPageEnd st)) as [Hgt|Hle].
    + eapply IH; [|exact Hrun]. apply Hstep; assumption.
    + inversion Hrun; subst. split; assumption.
Qed.

(** More fuel never changes a result. *)
Lemma whileTaller_mono node index fuel fuel' st st' :
  (fuel <= fuel')%nat ->
  whileTaller fuel pageHeight node index st = Some st' ->
  whileTaller fuel' pageHeight node index st = Some st'.
Proof.
  revert fuel' st.
  induction fuel as [|fuel IH]; intros fuel' st Hle Hrun; simpl in Hrun.
  - discriminate.
  - destruct fuel' as [|fuel']; [lia|]. simpl.
    destruct (nodeBottom node >? currentPageEnd st).
    + apply IH; [lia|exact Hrun].
    + exact Hrun.
Qed.

Lemma visitNode_mono node index fuel fuel' st st' :
  (fuel <= fuel')%nat ->
  visitNode fuel pageHeight node index st = Some st' ->
  visitNode fuel' pageHeight node index st = Some st'.
Proof.
  unfold visitNode. intros Hle.
  destruct (nodeBottom node >? currentPageEnd st); [|trivial].
  apply whileTaller_mono; exact Hle.
Qed.

Lemma forEachNode_mono nodes fuel fuel' :
  (fuel <= fuel')%nat ->
  forall index st st',
    forEachNode fuel pageHeight nodes index st = Some st' ->
    forEachNode fuel' pageHeight nodes index st = Some st'.
Proof.
  intros Hle.
  induction nodes as [|node rest IH]; intros index st st' Hrun; simpl in *.
  - exact Hrun.
  - destruct (visitNode fuel pageHeight node index st) as [st1|] eqn:Hv;
      [|discriminate].
    rewrite (visitNode_mono _ _ _ _ _ _ Hle Hv). apply IH; exact Hrun.
Qed.

Lemma whileTaller_S fuel node index st :
  whileTaller (S fuel) pageHeight node index st =
  if nodeBottom node >? currentPageEnd st
  then whileTaller fuel pageHeight node index
         (pushBreak pageHeight (pos node + height node) index st)
  else Some st.
Proof. reflexivity. Qed.

(** With a positive page height the inner loop stops. *)
Lemma whileTaller_terminates node index :
  0 < pageHeight ->
  forall (k : nat) st,
    nodeBottom node - currentPageEnd st <= Z.of_nat k * pageHeight ->
    exists st', whileTaller (S k) pageHeight node index st = Some st'.
Proof.
  intros Hpos k.
  induction k as [|k IH]; intros st Hk; rewrite whileTaller_S.
  - destruct (Z.gtb_spec (nodeBottom node) (currentPageEnd st)); [lia|eauto].
  - destruct (Z.gtb_spec (nodeBottom node) (currentPageEnd st)); [|eauto].
    apply IH. simpl. lia.
Qed.

Lemma visitNode_terminates node index st :
  0 < pageHeight ->
  exists fuel st', visitNode fuel pageHeight node index st = Some st'.
Proof.
  intros Hpos. unfold visitNode.
  destruct (nodeBottom node >? currentPageEnd st).
  - set (st1 := pushBreak pageHeight (pos node) (index - 1) st).
    set (k := Z.to_nat (nodeBottom node - currentPageEnd st1)).
    destruct (whileTaller_terminates node index Hpos k st1) as [st' Hst'].
    + subst k. nia.
    + eauto.
  - exists 0%nat. eauto.
Qed.

Lemma forEachNode_terminates nodes :
  0 < pageHeight ->
  forall index st,
    exists fuel st', forEachNode fuel pageHeight nodes index st = Some st'.
Proof.
  intros Hpos.
  induction nodes as [|node rest IH]; intros index st; simpl.
  - exists 0%nat. eauto.
  - destruct (visitNode_terminates node index st Hpos) as (f1 & st1 & H1).
    destruct (IH (index + 1) st1) as (f2 & st2 & H2).
    exists (Nat.max f1 f2), st2.
    rewrite (visitNode_mono _ _ f1 (Nat.max f1 f2) _ _ (Nat.le_max_l _ _) H1).
    apply (forEachNode_mono rest f2); [apply Nat.le_max_r | exact H2].
Qed.

End PlannerFacts.

(** [calculatePageBreaks] returns for every positive page height. *)
Lemma calculatePageBreaks_terminates nodes pageHeight :
  0 < pageHeight -> exists plan, returns nodes pageHeight plan.
Proof.
  intros Hpos.
  destruct (forEachNode_terminates pageHeight nodes Hpos 0 (initLocals pageHeight))
    as (fuel & st' & Hrun).
  exists (breaks st'), fuel. unfold calculatePageBreaks. rewrite Hrun. reflexivity.
Qed.

(** ... and what it returns does not depend on the fuel. *)
Lemma returns_deterministic nodes pageHeight plan1 plan2 :
  returns nodes pageHeight plan1 -> returns nodes pageHeight plan2 ->
  plan1 = plan2.
Proof.
  intros [f1 H1] [f2 H2]. unfold calculatePageBreaks in *.
  destruct (forEachNode f1 pageHeight nodes 0 (initLocals pageHeight))
    as [s1|] eqn:E1; [|discriminate].
  destruct (forEachNode f2 pageHeight nodes 0 (initLocals pageHeight))
    as [s2|] eqn:E2; [|discriminate].
  apply (forEachNode_mono pageHeight nodes f1 (Nat.max f1 f2) (Nat.le_max_l _ _)) in E1.
  apply (forEachNode_mono pageHeight nodes f2 (Nat.max f1 f2) (Nat.le_max_r _ _)) in E2.
  simpl in H1, H2. congruence.
Qed.

(** With a page height that is not positive the inner loop never stops
    once a node reaches past the current page end: no amount of fuel makes
    the call return. *)
Lemma whileTaller_diverges pageHeight node index fuel :
  pageHeight <= 0 ->
  forall st, currentPageEnd st < nodeBottom node ->
             whileTaller fuel pageHeight node index st = None.
Proof.
  intros Hph. induction fuel as [|fuel IH]; intros st Hlt; [reflexivity|].
  rewrite whileTaller_S.
  destruct (Z.gtb_spec (nodeBottom node) (currentPageEnd st)); [|lia].
  apply IH. simpl. lia.
Qed.

Lemma calculatePageBreaks_diverges node rest pageHeight fuel :
  pageHeight <= 0 ->
  pageHeight < nodeBottom node ->
  calculatePageBreaks fuel (node :: rest) pageHeight = None.
Proof.
  intros Hph Hcross. unfold calculatePageBreaks. simpl forEachNode.
  unfold visitNode. cbn [initLocals currentPageEnd].
  destruct (Z.gtb_spec (nodeBottom node) pageHeight); [|lia].
  rewrite whileTaller_diverges; [reflexivity|exact Hph|simpl; lia].
Qed.

Section PlannerRules.

Variable pageHeight : Z.

(** A rule for the callback: [P] has to be established by the first push
    when the node crosses the current page end, kept by every push of the
    inner loop, and to hold already when the node does not cross. *)
Lemma visitNode_rule (P : Locals -> Prop) node index fuel st st' :
  (forall s, P s -> currentPageEnd s < nodeBottom node ->
             P (pushBreak pageHeight (pos node + height node) index s)) ->
  (currentPageEnd st < nodeBottom node ->
   P (pushBreak pageHeight (pos node) (index - 1) st)) ->
  (nodeBottom node <= currentPageEnd st -> P st) ->
  visitNode fuel pageHeight node index st = Some st' ->
  P st' /\ nodeBottom node <= currentPageEnd st'.
Proof.
  intros Hloop Hfirst Hnone. unfold visitNode.
  destruct (Z.gtb_spec (nodeBottom node) (currentPageEnd st)) as [Hgt|Hle].
  - apply whileTaller_rule; auto.
  - intros Hrun. inversion Hrun; subst. auto.
Qed.

(** A rule for the whole [forEach]: an invariant indexed by the number of
    nodes already visited. *)
Lemma forEachNode_rule (I : nat -> Locals -> Prop) nodes fuel :
  (forall i node st st',
      nth_error nodes i = Some node -> I i st ->
      visitNode fuel pageHeight node (Z.of_nat i) st = Some st' ->
      I (S i) st') ->
  forall st st',
    I 0%nat st ->
    forEachNode fuel pageHeight nodes 0 st = Some st' ->
    I (List.length nodes) st'.
Proof.
  intros Hstep.
  assert (Hgen : forall rest k st st',
             (forall j node, nth_error rest j = Some node ->
                             nth_error nodes (k + j) = Some node) ->
             I k st ->
             forEachNode fuel pageHeight rest (Z.of_nat k) st = Some st' ->
             I (k + List.length rest)%nat st').
  { induction rest as [|node rest IH]; intros k st st' Hnth HI Hrun; simpl in Hrun.
    - inversion Hrun; subst. simpl. rewrite Nat.add_0_r. exact HI.
    - destruct (visitNode fuel pageHeight node (Z.of_nat k) st) as [st1|] eqn:Hv;
        [|discriminate].
      simpl. rewrite <- Nat.add_succ_comm.
      apply (IH (S k) st1).
      + intros j n Hj. rewrite Nat.add_succ_comm. apply Hnth. exact Hj.
      + apply (Hstep k node st); auto.
        specialize (Hnth 0%nat node eq_refl).
        rewrite Nat.add_0_r in Hnth. exact Hnth.
      + replace (Z.of_nat (S k)) with (Z.of_nat k + 1) by lia. exact Hrun. }
  intros st st' HI Hrun.
  apply (Hgen nodes 0%nat st st'); auto.
Qed.

(** What one visit adds to [breaks]: entries pushed at this node, each at a
    boundary the node's bottom strictly exceeds. *)
Lemma visitNode_pushes node index fuel st st' :
  visitNode fuel pageHeight node index st = Some st' ->
  exists pushed,
    breaks st' = breaks st ++ pushed /\
    Forall (fun b => position b < nodeBottom node) pushed /\
    (currentPageEnd st < nodeBottom node ->
     exists later,
       pushed = {| pageNumber := curPageNumber st;
                   position := currentPageEnd st;
                   insertPos := pos node;
                   afterNodeIndex := index - 1 |} :: later) /\
    (nodeBottom node <= currentPageEnd st -> pushed = []).
Proof.
  intros Hrun.
  set (first := {| pageNumber := curPageNumber st;
                   position := currentPageEnd st;
                   insertPos := pos node;
                   afterNodeIndex := index - 1 |}).
  destruct (visitNode_rule
              (fun s => exists pushed,
                   breaks s = breaks st ++ pushed /\
                   Forall (fun b => position b < nodeBottom node) pushed /\
                   (currentPageEnd st < nodeBottom node ->
                    exists later, pushed = first :: later) /\
                   (nodeBottom node <= currentPageEnd st -> pushed = [] /\ s = st))
              node index fuel st st') as [(pushed & Hb & Hall & Hfirst & Hnone) _];
    auto.
  - intros s (pushed & Hb & Hall & Hfirst & Hnone) Hgt.
    destruct (Z.lt_ge_cases (currentPageEnd st) (nodeBottom node)) as [Hc|Hc].
    + destruct (Hfirst Hc) as [later Hlater].
      eexists. simpl. rewrite Hb, <- app_assoc. split; [reflexivity|].
      split; [|split].
      * apply Forall_app. split; [exact Hall|]. constructor; [exact Hgt|constructor].
      * intros _. eexists. rewrite Hlater. rewrite <- app_comm_cons. reflexivity.
      * intros Hle. lia.
    + destruct (Hnone Hc) as [_ ->]. lia.
  - intros Hgt. exists [first]. simpl. split; [reflexivity|].
    split; [constructor; [exact Hgt|constructor]|].
    split; [eauto|]. intros Hle. lia.
  - intros Hle. exists []. rewrite app_nil_r. split; [reflexivity|].
    split; [constructor|]. split; [intros Hgt; lia|auto].
  - exists pushed. split; [exact Hb|]. split; [exact Hall|].
    split; [exact Hfirst|]. intros Hle. apply Hnone. exact Hle.
Qed.

End PlannerRules.

Lemma forEachNode_cons pageHeight fuel node rest index st :
  forEachNode fuel pageHeight (node :: rest) index st =
  match visitNode fuel pageHeight node index st with
  | None => None
  | Some st' => forEachNode fuel pageHeight rest (index + 1) st'
  end.
Proof. reflexivity. Qed.

(** The [forEach] only ever appends to [breaks]. *)
Lemma forEachNode_extends pageHeight nodes fuel :
  forall index st st',
    forEachNode fuel pageHeight nodes index st = Some st' ->
    exists added, breaks st' = breaks st ++ added.
Proof.
  induction nodes as [|node rest IH]; intros index st st' Hrun; simpl in Hrun.
  - inversion Hrun; subst. exists []. symmetry. apply app_nil_r.
  - destruct (visitNode fuel pageHeight node index st) as [st1|] eqn:Hv;
      [|discriminate].
    destruct (visitNode_pushes _ _ _ _ _ _ Hv) as (pushed & Hp & _).
    destruct (IH _ _ _ Hrun) as (added & Ha).
    exists (pushed ++ added). rewrite Ha, Hp. symmetry. apply app_assoc.
Qed.

(** ** The planner on binary64 numbers *)

Module PlannerFFacts.
Import PlannerF.





End PlannerFFacts.


(** ** C1 *)



(** ** C2 *)

(** C2.  For the single oversized node [{top: 0, height: 3000, pos: p}]
    and [pageHeight = 1123] the planner returns exactly two breaks: page 1
    at boundary 1123 with insert position [p], and page 2 at boundary 2246
    with insert position [p + 3000]. *)
Theorem C2_oversized_node_two_breaks :
  forall ty p,
    let nodes := [mkNodeHeight ty 3000 0 p] in
    let expected := [ {| pageNumber := 1; position := 1123;
                         insertPos := p; afterNodeIndex := -1 |};
                      {| pageNumber := 2; position := 2246;
                         insertPos := p + 3000; afterNodeIndex := 0 |} ] in
    returns nodes 1123 expected /\
    (forall plan, returns nodes 1123 plan -> plan = expected).
Proof.
  intros ty p nodes expected.
  assert (Hret : returns nodes 1123 expected) by (exists 2%nat; reflexivity).
  split; [exact Hret|].
  intros plan Hplan. eapply returns_deterministic; eassumption.
Qed.

(** C2 read backwards: whatever fuel the run is given, the plan it returns
    for a node at position 9 is the one above. *)
Lemma C2_oversized_node_two_breaks_witness :
  [ mkBreak 1 1123 9 (-1); mkBreak 2 2246 (9 + 3000) 0 ] =
  [ {| pageNumber := 1; position := 1123; insertPos := 9; afterNodeIndex := -1 |};
    {| pageNumber := 2; position := 2246; insertPos := 9 + 3000;
       afterNodeIndex := 0 |} ].
Proof.
  destruct (C2_oversized_node_two_breaks "paragraph"%string 9) as [_ Huniq].
  apply Huniq. exists 7%nat. reflexivity.
Defined.

(** ** C10 *)

(** C10.  When the first node's bottom [top + height] strictly exceeds
    [pageHeight], every returned plan starts with a break for page 1 at
    boundary [pageHeight], to be inserted at the first node's position,
    whose [afterNodeIndex] is [-1]; indexing [nodeHeights] by it yields
    [undefined].  For a positive page height such a plan is returned. *)
Theorem C10_first_break_after_index_minus_one :
  forall node rest pageHeight,
    pageHeight < nodeBottom node ->
    (forall plan,
        returns (node :: rest) pageHeight plan ->
        exists first later,
          plan = first :: later /\
          first = {| pageNumber := 1; position := pageHeight;
                     insertPos := pos node; afterNodeIndex := -1 |} /\
          arrayAt (node :: rest) (afterNodeIndex first) = None) /\
    (0 < pageHeight -> exists plan, returns (node :: rest) pageHeight plan).
Proof.
  intros node rest pageHeight Hcross. split.
  - intros plan [fuel Hret]. unfold calculatePageBreaks in Hret.
    rewrite forEachNode_cons in Hret.
    destruct (visitNode fuel pageHeight node 0 (initLocals pageHeight))
      as [st1|] eqn:Hv; [|discriminate].
    destruct (forEachNode fuel pageHeight rest (0 + 1) st1) as [st'|] eqn:Hrun;
      [|discriminate].
    simpl in Hret. inversion Hret; subst plan. clear Hret.
    destruct (visitNode_pushes _ _ _ _ _ _ Hv) as (pushed & Hp & _ & Hfirst & _).
    destruct (Hfirst Hcross) as [later Hlater].
    destruct (forEachNode_extends _ _ _ _ _ _ Hrun) as [added Hadded].
    eexists. exists (later ++ added).
    rewrite Hadded, Hp, Hlater. simpl.
    split; [reflexivity|]. split; reflexivity.
  - intros Hpos. apply calculatePageBreaks_terminates. exact Hpos.
Qed.

(** C10 at a node of 1500 pixels on a page of 1123. *)
Lemma C10_first_break_after_index_minus_one_witness :
  exists first later,
    [ mkBreak 1 1123 4 (-1) ] = first :: later /\
    first = mkBreak 1 1123 4 (-1) /\
    arrayAt [mkNodeHeight "paragraph" 1500 0 4] (afterNodeIndex first) = None.
Proof.
  destruct (C10_first_break_after_index_minus_one
              (mkNodeHeight "paragraph" 1500 0 4) [] 1123) as [H _].
  - vm_compute. reflexivity.
  - apply (H [mkBreak 1 1123 4 (-1)]). exists 1%nat. reflexivity.
Defined.

(** ** C3 *)

Section CountingBreaks.

Variable pageHeight : Z.
Hypothesis pageHeight_pos : 0 < pageHeight.

Lemma visitNode_counted node index fuel st st' :
  0 <= height node ->
  countedUpTo pageHeight (top node) st ->
  visitNode fuel pageHeight node index st = Some st' ->
  countedUpTo pageHeight (nodeBottom node) st'.
Proof.
  intros Hh (HB & Hpn & Hcpe & Hlen & Hle & Hlast) Hv.
  destruct (visitNode_rule pageHeight
              (fun s => 1 <= curPageNumber s /\
                        currentPageEnd s = curPageNumber s * pageHeight /\
                        Z.of_nat (List.length (breaks s)) = curPageNumber s - 1 /\
                        (curPageNumber s = 1 \/
                         (curPageNumber s - 1) * pageHeight < nodeBottom node))
              node index fuel st st') as [(H1 & H2 & H3 & H4) H5]; auto.
  - intros s (Hpn' & Hcpe' & Hlen' & _) Hgt. simpl.
    rewrite length_app. simpl. repeat split; try lia; right; nia.
  - intros Hgt. simpl.
    rewrite length_app. simpl. repeat split; try lia; right; nia.
  - intros Hnone. unfold nodeBottom. repeat split; lia.
  - unfold countedUpTo. unfold nodeBottom in *. repeat split; lia.
Qed.

Lemma forEachNode_counted nodes fuel :
  forall index st st' t,
    contiguousFrom t nodes = true ->
    countedUpTo pageHeight t st ->
    forEachNode fuel pageHeight nodes index st = Some st' ->
    countedUpTo pageHeight (t + sumHeights nodes) st'.
Proof.
  induction nodes as [|node rest IH]; intros index st st' t Hc Hinv Hrun.
  - simpl in Hrun. inversion Hrun; subst.
    unfold sumHeights. simpl. rewrite Z.add_0_r. exact Hinv.
  - rewrite forEachNode_cons in Hrun.
    destruct (visitNode fuel pageHeight node index st) as [st1|] eqn:Hv;
      [|discriminate].
    simpl in Hc. apply andb_prop in Hc. destruct Hc as [Hc Hrest].
    apply andb_prop in Hc. destruct Hc as [Htop Hh].
    apply Z.eqb_eq in Htop. apply Z.leb_le in Hh. subst t.
    assert (H1 : countedUpTo pageHeight (nodeBottom node) st1)
      by (eapply visitNode_counted; eauto).
    specialize (IH _ _ _ _ Hrest H1 Hrun).
    unfold sumHeights in *. simpl. unfold nodeBottom in IH.
    rewrite Z.add_assoc. exact IH.
Qed.

(** The page the locals stop on, in closed form. *)
Lemma countedUpTo_crossings B st :
  countedUpTo pageHeight B st ->
  Z.of_nat (List.length (breaks st)) = strictCrossings B pageHeight.
Proof.
  intros (HB & Hpn & Hcpe & Hlen & Hle & Hlast).
  rewrite Hlen. unfold strictCrossings.
  pose proof (Z.div_mod B pageHeight ltac:(lia)) as Hdm.
  pose proof (Z.mod_pos_bound B pageHeight pageHeight_pos) as Hmod.
  set (q := B / pageHeight) in *. set (r := B mod pageHeight) in *.
  set (c := curPageNumber st) in *.
  destruct (Z.ltb_spec 0 B) as [Hpos|Hzero];
    destruct (Z.eqb_spec r 0) as [Hr|Hr]; simpl.
  - assert (c - 1 < q) by (destruct Hlast; nia).
    assert (q <= c) by nia. lia.
  - assert (q < c) by nia.
    assert (c - 1 <= q) by (destruct Hlast; nia). lia.
  - assert (B = 0) by lia. assert (q = 0) by nia.
    destruct Hlast; nia.
  - assert (B = 0) by lia. assert (q = 0) by nia.
    destruct Hlast; nia.
Qed.

End CountingBreaks.




(** ** C4 *)

Lemma ascending_snoc l x :
  ascending l = true ->
  Forall (fun y => y < x) l ->
  ascending (l ++ [x]) = true.
Proof.
  induction l as [|a l IH]; intros Hasc Hall; [reflexivity|].
  destruct l as [|b l].
  - simpl. inversion Hall; subst. rewrite andb_true_r. apply Z.ltb_lt. assumption.
  - simpl in Hasc. apply andb_prop in Hasc. destruct Hasc as [Hab Hrest].
    change (((a <? b) && ascending ((b :: l) ++ [x])) = true).
    rewrite Hab. simpl andb. apply IH; [exact Hrest|].
    inversion Hall; assumption.
Qed.

(** Page numbers are handed out in order, whatever the input. *)
Lemma forEachNode_pageNumbers pageHeight nodes fuel st' :
  forEachNode fuel pageHeight nodes 0 (initLocals pageHeight) = Some st' ->
  ascending (map pageNumber (breaks st')) = true.
Proof.
  intros Hrun.
  set (J := fun s : Locals =>
              ascending (map pageNumber (breaks s)) = true /\
              Forall (fun y => y < curPageNumber s) (map pageNumber (breaks s))).
  assert (Hpush : forall ins after s, J s -> J (pushBreak pageHeight ins after s)).
  { intros ins after s [Hasc Hall]. unfold J. simpl.
    rewrite map_app. simpl. split.
    - apply ascending_snoc; assumption.
    - apply Forall_app. split.
      + eapply Forall_impl; [|exact Hall]. simpl. intros; lia.
      + constructor; [lia|constructor]. }
  assert (H : J st').
  { apply (forEachNode_rule pageHeight (fun _ s => J s) nodes fuel)
      with (st := initLocals pageHeight); [| |exact Hrun].
    - intros i node st st1 _ HJ Hv.
      apply (visitNode_rule pageHeight J node (Z.of_nat i) fuel st st1); auto.
    - unfold J. simpl. split; [reflexivity|constructor]. }
  exact (proj1 H).
Qed.

Lemma whileTaller_not_entered pageHeight node index fuel st st' :
  nodeBottom node <= currentPageEnd st ->
  whileTaller fuel pageHeight node index st = Some st' ->
  st' = st.
Proof.
  intros Hle Hrun. destruct fuel as [|fuel]; [discriminate|].
  rewrite whileTaller_S in Hrun.
  destruct (Z.gtb_spec (nodeBottom node) (currentPageEnd st)); [lia|].
  inversion Hrun. reflexivity.
Qed.

(** With contiguous nodes none of which is taller than a page, every node
    pushes at most the break in front of it, at its own position. *)
Lemma forEachNode_insertPos pageHeight nodes fuel :
  forall index st st' t,
    contiguousFrom t nodes = true ->
    heightsAtMost pageHeight nodes = true ->
    ascending (map pos nodes) = true ->
    t <= currentPageEnd st ->
    ascending (map insertPos (breaks st)) = true ->
    (forall node, hd_error nodes = Some node ->
                  Forall (fun y => y < pos node) (map insertPos (breaks st))) ->
    forEachNode fuel pageHeight nodes index st = Some st' ->
    ascending (map insertPos (breaks st')) = true.
Proof.
  induction nodes as [|node rest IH];
    intros index st st' t Hc Hmax Hpos Hle Hasc Hbelow Hrun.
  - simpl in Hrun. inversion Hrun; subst. exact Hasc.
  - rewrite forEachNode_cons in Hrun.
    destruct (visitNode fuel pageHeight node index st) as [st1|] eqn:Hv;
      [|discriminate].
    simpl in Hc. apply andb_prop in Hc. destruct Hc as [Hc Hrest].
    apply andb_prop in Hc. destruct Hc as [Htop Hh].
    apply Z.eqb_eq in Htop. apply Z.leb_le in Hh.
    simpl in Hmax. apply andb_prop in Hmax. destruct Hmax as [Hhmax Hmaxrest].
    apply Z.leb_le in Hhmax.
    specialize (Hbelow node eq_refl).
    assert (Hst1 : nodeBottom node <= currentPageEnd st1 /\
                   (breaks st1 = breaks st \/
                    exists b, breaks st1 = breaks st ++ [b] /\
                              insertPos b = pos node)).
    { unfold visitNode in Hv.
      destruct (Z.gtb_spec (nodeBottom node) (currentPageEnd st)) as [Hgt|Hng].
      - apply whileTaller_not_entered in Hv.
        + subst st1. simpl. split; [unfold nodeBottom; lia|].
          right. eexists. split; [reflexivity|reflexivity].
        + simpl. unfold nodeBottom. lia.
      - inversion Hv; subst. split; [exact Hng|left; reflexivity]. }
    destruct Hst1 as [Hend Hbreaks].
    assert (Hasc1 : ascending (map insertPos (breaks st1)) = true).
    { destruct Hbreaks as [->|(b & -> & Hb)]; [exact Hasc|].
      rewrite map_app. simpl. rewrite Hb. apply ascending_snoc; assumption. }
    apply (IH (index + 1) st1 st' (t + height node)); auto.
    + destruct rest as [|next rest']; [reflexivity|].
      simpl in Hpos. apply andb_prop in Hpos. apply Hpos.
    + unfold nodeBottom in Hend. lia.
    + intros next Hnext. destruct rest as [|n rest']; [discriminate|].
      simpl in Hnext. inversion Hnext; subst n.
      simpl in Hpos. apply andb_prop in Hpos. destruct Hpos as [Hlt _].
      apply Z.ltb_lt in Hlt.
      destruct Hbreaks as [->|(b & -> & Hb)].
      * eapply Forall_impl; [|exact Hbelow]. simpl. intros; lia.
      * rewrite map_app. apply Forall_app. split.
        -- eapply Forall_impl; [|exact Hbelow]. simpl. intros; lia.
        -- simpl. constructor; [lia|constructor].
Qed.

(** The sentence of C4 fails on an oversized node followed by another
    node: the list is contiguous, its positions grow and its heights are
    non-negative, yet the planned insert positions are 0, 3000, 5. *)
Lemma C4_insertPos_not_ordered :
  let nodes := [ mkNodeHeight "paragraph" 3000 0 0;
                 mkNodeHeight "paragraph" 1000 3000 5 ] in
  let plan := [ mkBreak 1 1123 0 (-1); mkBreak 2 2246 3000 0;
                mkBreak 3 3369 5 0 ] in
  ~ (ascending (map pos nodes) = true ->
     heightsNonNegative nodes = true ->
     forall plan', returns nodes 1123 plan' -> orderedPlan plan') /\
  contiguous nodes = true /\
  returns nodes 1123 plan.
Proof.
  intros nodes plan.
  assert (Hret : returns nodes 1123 plan) by (exists 2%nat; reflexivity).
  split; [|split; [reflexivity|exact Hret]].
  intros H. destruct (H eq_refl eq_refl plan Hret) as [_ Hins].
  vm_compute in Hins. discriminate.
Qed.

(** C4, amended.  Every returned plan has strictly increasing page numbers.
    Its insert positions are strictly increasing as well when the list is
    contiguous, its document positions are strictly increasing and no node
    is taller than [pageHeight]. *)
Theorem C4_plan_order :
  forall nodes pageHeight plan,
    returns nodes pageHeight plan ->
    ascending (map pageNumber plan) = true /\
    (contiguous nodes = true ->
     heightsAtMost pageHeight nodes = true ->
     ascending (map pos nodes) = true ->
     ascending (map insertPos plan) = true).
Proof.
  intros nodes pageHeight plan [fuel Hret]. unfold calculatePageBreaks in Hret.
  destruct (forEachNode fuel pageHeight nodes 0 (initLocals pageHeight))
    as [st'|] eqn:Hrun; [|discriminate].
  simpl in Hret. inversion Hret; subst plan. split.
  - eapply forEachNode_pageNumbers. exact Hrun.
  - intros Hc Hmax Hpos.
    destruct nodes as [|node rest].
    + simpl in Hrun. inversion Hrun. reflexivity.
    + apply (forEachNode_insertPos pageHeight (node :: rest) fuel 0
               (initLocals pageHeight) st' 0);
        [exact Hc|exact Hmax|exact Hpos| | | |exact Hrun].
      * unfold contiguous in Hc. simpl in Hc, Hmax.
        apply andb_prop in Hc. destruct Hc as [Hc _].
        apply andb_prop in Hc. destruct Hc as [_ Hh]. apply Z.leb_le in Hh.
        apply andb_prop in Hmax. destruct Hmax as [Hm _]. apply Z.leb_le in Hm.
        simpl. lia.
      * reflexivity.
      * intros n _. simpl. constructor.
Qed.

(** C4 on three nodes of 600 pixels each and a page of 600 pixels. *)
Lemma C4_plan_order_witness :
  let plan := [ mkBreak 1 600 5 0; mkBreak 2 1200 9 1 ] in
  ascending (map pageNumber plan) = true /\
  ascending (map insertPos plan) = true.
Proof.
  intros plan.
  destruct (C4_plan_order
              [ mkNodeHeight "paragraph" 600 0 0;
                mkNodeHeight "paragraph" 600 600 5;
                mkNodeHeight "paragraph" 600 1200 9 ] 600 plan) as [H1 H2].
  - exists 1%nat. reflexivity.
  - split; [exact H1|]. apply H2; reflexivity.
Defined.

(* ================================================================== *)
(** * Properties of the document model and of [removeAllPageBreaks] *)
(* ================================================================== *)

Module DocFacts.
Import Doc.

(** Induction over a node together with its content. *)
Lemma node_fragment_ind (P : PMNode -> Prop) (Q : list PMNode -> Prop) :
  (forall len, P (Text len)) ->
  P HardBreak -> P HorizontalRule ->
  (forall k, P (PageBreak k)) ->
  (forall ty c, Q c -> P (Branch ty c)) ->
  Q [] ->
  (forall x r, P x -> Q r -> Q (x :: r)) ->
  (forall n, P n) /\ (forall c, Q c).
Proof.
  intros HText HHard HRule HBreak HBranch Hnil Hcons.
  assert (HP : forall n, P n).
  { fix IH 1. intros [len| | |k|ty c].
    - apply HText.
    - exact HHard.
    - exact HRule.
    - apply HBreak.
    - apply HBranch.
      induction c as [|x r IHr]; [exact Hnil|].
      apply Hcons; [apply IH|exact IHr]. }
  split; [exact HP|].
  induction c as [|x r IHr]; [exact Hnil|apply Hcons; [apply HP|exact IHr]].
Qed.

Lemma contentSize_cons x r : contentSize (x :: r) = nodeSize x + contentSize r.
Proof. reflexivity. Qed.

Lemma nodeSize_Branch ty c : nodeSize (Branch ty c) = 2 + contentSize c.
Proof. reflexivity. Qed.

Lemma nodeSize_pos n : 1 <= nodeSize n.
Proof.
  revert n.
  apply (node_fragment_ind (fun n => 1 <= nodeSize n)
                           (fun c => 0 <= contentSize c)).
  - intros len. simpl. pose proof (Pos2Z.is_pos len). lia.
  - simpl. lia.
  - simpl. lia.
  - intros k. simpl. lia.
  - intros ty c Hc. rewrite nodeSize_Branch. lia.
  - unfold contentSize. simpl. lia.
  - intros x r Hx Hr. rewrite contentSize_cons. lia.
Qed.

Lemma contentSize_nonneg c : 0 <= contentSize c.
Proof.
  induction c as [|x r IH]; unfold contentSize in *; simpl; [lia|].
  pose proof (nodeSize_pos x). lia.
Qed.

(** The callback at line 101 accumulates the markers of the visited nodes. *)
Lemma collect_markersOf visited :
  forall acc, fold_left collectPageBreak visited acc = acc ++ markersOf visited.
Proof.
  induction visited as [|[n p] rest IH]; intros acc; simpl.
  - symmetry. apply app_nil_r.
  - rewrite IH. unfold markersOf. simpl.
    destruct (isPageBreak n); simpl.
    + rewrite <- app_assoc. reflexivity.
    + reflexivity.
Qed.

Lemma findPageBreaks_markersOf doc :
  findPageBreaks doc = markersOf (nodesBelow doc 0).
Proof.
  unfold findPageBreaks, descendants. rewrite collect_markersOf. reflexivity.
Qed.

Lemma markersOf_app l1 l2 : markersOf (l1 ++ l2) = markersOf l1 ++ markersOf l2.
Proof. unfold markersOf. rewrite filter_app, map_app. reflexivity. Qed.

Lemma below_Branch ty c s : below (Branch ty c) s = within c s.
Proof. reflexivity. Qed.

Lemma within_nil s : within [] s = [].
Proof. reflexivity. Qed.

Lemma within_cons x r s :
  within (x :: r) s =
  markersOf [(x, s)] ++ below x (s + 1) ++ within r (s + nodeSize x).
Proof.
  unfold within, below. simpl fragmentDescendants.
  change ((x, s) :: nodesBelow x (s + 1) ++
            fragmentDescendants nodesBelow r (s + nodeSize x))
    with ([(x, s)] ++ nodesBelow x (s + 1) ++
            fragmentDescendants nodesBelow r (s + nodeSize x)).
  rewrite !markersOf_app. reflexivity.
Qed.

Lemma markersOf_single x s :
  markersOf [(x, s)] = if isPageBreak x then [(s, nodeSize x)] else [].
Proof. unfold markersOf. simpl. destruct (isPageBreak x); reflexivity. Qed.

Lemma isPageBreak_inv x : isPageBreak x = true -> exists k, x = PageBreak k.
Proof.
  destruct x as [len| | |k|ty c]; try discriminate.
  - eauto.
  - destruct ty; discriminate.
Qed.

Lemma isPageBreak_Branch ty c : isPageBreak (Branch ty c) = false.
Proof. destruct ty; reflexivity. Qed.

Lemma nil_or_last {A : Type} (l : list A) :
  l = [] \/ exists l' a, l = l' ++ [a].
Proof.
  induction l as [|a l _] using rev_ind; [left; reflexivity|right; eauto].
Qed.

(** Every collected marker lies inside the fragment it was found in. *)
Lemma markers_in_range :
  (forall n s, Forall (fun e => s <= fst e /\ 1 <= snd e /\
                                fst e + snd e <= s + contentSize (content n))
                      (below n s)) /\
  (forall c s, Forall (fun e => s <= fst e /\ 1 <= snd e /\
                                fst e + snd e <= s + contentSize c)
                      (within c s)).
Proof.
  apply node_fragment_ind; try (intros; constructor).
  - intros ty c Hc s. rewrite below_Branch. apply Hc.
  - intros x r Hx Hr s. rewrite within_cons, contentSize_cons.
    pose proof (nodeSize_pos x) as Hsz.
    pose proof (contentSize_nonneg r) as Hr0.
    repeat rewrite Forall_app. split; [|split].
    + rewrite markersOf_single. destruct (isPageBreak x); constructor; [|constructor].
      simpl. lia.
    + destruct x as [len| | |k|ty cx]; try constructor.
      eapply Forall_impl; [|exact (Hx (s + 1))].
      intros e He. cbv beta in He.
      change (content (Branch ty cx)) with cx in He.
      rewrite nodeSize_Branch. lia.
    + eapply Forall_impl; [|exact (Hr (s + nodeSize x))].
      intros e He. cbv beta in *. lia.
Qed.

(** How many markers a fragment holds does not depend on where it starts. *)
Lemma markers_count :
  (forall n s t, List.length (below n s) = List.length (below n t)) /\
  (forall c s t, List.length (within c s) = List.length (within c t)).
Proof.
  apply node_fragment_ind; try reflexivity.
  - intros ty c Hc s t. rewrite !below_Branch. apply Hc.
  - intros x r Hx Hr s t. rewrite !within_cons, !length_app, !markersOf_single.
    rewrite (Hx (s + 1) (t + 1)), (Hr (s + nodeSize x) (t + nodeSize x)).
    destruct (isPageBreak x); reflexivity.
Qed.

Lemma within_empty_anywhere c s t : within c s = [] -> within c t = [].
Proof.
  intros H. apply length_zero_iff_nil.
  rewrite (proj2 markers_count c t s), H. reflexivity.
Qed.

Lemma fragmentDelete_cons inside x r from to :
  fragmentDelete inside (x :: r) from to =
  if (from =? 0) && (to =? nodeSize x) then Some r
  else if nodeSize x <=? from
       then option_map (cons x) (fragmentDelete inside r (from - nodeSize x)
                                   (to - nodeSize x))
       else if (0 <? from) && (to <? nodeSize x)
            then option_map (fun x' => x' :: r) (inside x (from - 1) (to - 1))
            else None.
Proof. reflexivity. Qed.

(** What a refill puts in holds no marker. *)
Lemma within_refill ty c s : within (refill ty c) s = within c s.
Proof. destruct c; [destruct ty; reflexivity|reflexivity]. Qed.

(** Deleting the range of the last collected marker takes exactly that
    marker out: the markers before it stay where they were collected. *)
Lemma delete_last_marker :
  (forall n s l p z,
      below n s = l ++ [(p, z)] ->
      exists n',
        deleteInside n (p - s) (p - s + z) = Some n' /\
        below n' s = l /\
        isPageBreak n' = false) /\
  (forall c s l p z,
      within c s = l ++ [(p, z)] ->
      exists c',
        fragmentDelete deleteInside c (p - s) (p - s + z) = Some c' /\
        within c' s = l).
Proof.
  apply node_fragment_ind;
    try (intros s l p z H; exfalso; exact (app_cons_not_nil _ _ _ H));
    try (intros k s l p z H; exfalso; exact (app_cons_not_nil _ _ _ H)).
  - (* Branch *)
    intros ty c Hc s l p z Hl. rewrite below_Branch in Hl.
    destruct (Hc s l p z Hl) as (c' & Hdel & Hw).
    exists (Branch ty (refill ty c')). simpl deleteInside. rewrite Hdel.
    cbn [option_map].
    split; [reflexivity|].
    split; [rewrite below_Branch, within_refill; exact Hw|].
    apply isPageBreak_Branch.
  - (* x :: r *)
    intros x r Hx Hr s l p z Hl. rewrite within_cons in Hl.
    pose proof (nodeSize_pos x) as Hsz.
    rewrite fragmentDelete_cons.
    destruct (nil_or_last (within r (s + nodeSize x))) as [Hnone|(W' & e & HW)].
    + rewrite Hnone, app_nil_r in Hl.
      destruct (nil_or_last (below x (s + 1))) as [Hnone'|(B' & e & HB)].
      * (* the marker is [x] itself *)
        rewrite Hnone', app_nil_r, markersOf_single in Hl.
        destruct (isPageBreak x) eqn:Hpb;
          [|exfalso; eapply app_cons_not_nil; exact Hl].
        destruct l as [|a l]; [|destruct l; discriminate].
        simpl in Hl. inversion Hl; subst p z.
        replace (s - s) with 0 by lia. rewrite Z.add_0_l.
        rewrite !Z.eqb_refl. cbn [andb].
        exists r. split; [reflexivity|].
        eapply within_empty_anywhere. exact Hnone.
      * (* the marker is inside [x] *)
        destruct x as [len| | |k|ty cx];
          try (exfalso; exact (app_cons_not_nil _ _ _ HB)).
        rewrite markersOf_single, isPageBreak_Branch in Hl. simpl app in Hl.
        rewrite HB in Hl. apply app_inj_tail in Hl. destruct Hl as [HlB ->].
        subst B'.
        pose proof (proj1 markers_in_range (Branch ty cx) (s + 1)) as Hrange.
        rewrite HB in Hrange. apply Forall_app in Hrange.
        destruct Hrange as [_ Hrange]. inversion Hrange as [|? ? Hpz _]; subst.
        simpl in Hpz. rewrite nodeSize_Branch in *.
        destruct (Hx (s + 1) l p z HB) as (x' & Hdel & Hbelow & Hpb').
        replace (p - s =? 0) with false by (symmetry; apply Z.eqb_neq; lia).
        cbn [andb].
        replace (2 + contentSize cx <=? p - s) with false
          by (symmetry; apply Z.leb_gt; lia).
        replace (0 <? p - s) with true by (symmetry; apply Z.ltb_lt; lia).
        replace (p - s + z <? 2 + contentSize cx) with true
          by (symmetry; apply Z.ltb_lt; lia).
        cbn [andb].
        replace (p - s - 1) with (p - (s + 1)) by lia.
        replace (p - s + z - 1) with (p - (s + 1) + z) by lia.
        rewrite Hdel. cbn [option_map].
        exists (x' :: r). split; [reflexivity|].
        rewrite within_cons, markersOf_single, Hpb', Hbelow.
        rewrite (within_empty_anywhere r _ (s + nodeSize x') Hnone).
        simpl. apply app_nil_r.
    + (* the marker is in [r] *)
      rewrite HW in Hl. rewrite !app_assoc in Hl. apply app_inj_tail in Hl.
      destruct Hl as [Hl ->].
      pose proof (proj2 markers_in_range r (s + nodeSize x)) as Hrange.
      rewrite HW in Hrange. apply Forall_app in Hrange.
      destruct Hrange as [_ Hrange]. inversion Hrange as [|? ? Hpz _]; subst.
      simpl in Hpz.
      destruct (Hr (s + nodeSize x) W' p z HW) as (r' & Hdel & Hw).
      replace (p - s =? 0) with false by (symmetry; apply Z.eqb_neq; lia).
      cbn [andb].
      replace (nodeSize x <=? p - s) with true by (symmetry; apply Z.leb_le; lia).
      replace (p - s - nodeSize x) with (p - (s + nodeSize x)) by lia.
      replace (p - s + z - nodeSize x) with (p - (s + nodeSize x) + z) by lia.
      rewrite Hdel. cbn [option_map].
      exists (x :: r'). split; [reflexivity|].
      rewrite within_cons, Hw, !app_assoc. reflexivity.
Qed.


Lemma ascending_app l1 l2 :
  ascending l1 = true -> ascending l2 = true ->
  (forall a b, In a l1 -> In b l2 -> a < b) ->
  ascending (l1 ++ l2) = true.
Proof.
  induction l1 as [|a l1 IH]; intros H1 H2 Hlt; [exact H2|].
  destruct l1 as [|a' l1].
  - destruct l2 as [|b l2]; [reflexivity|].
    change (((a <? b) && ascending (b :: l2)) = true).
    rewrite H2, andb_true_r. apply Z.ltb_lt. apply Hlt; left; reflexivity.
  - simpl in H1. apply andb_prop in H1. destruct H1 as [Haa Hrest].
    change (((a <? a') && ascending ((a' :: l1) ++ l2)) = true).
    rewrite Haa. cbn [andb]. apply IH; [exact Hrest|exact H2|].
    intros x y Hx Hy. apply Hlt; [right; exact Hx|exact Hy].
Qed.


(** Deleting the collected ranges from the last to the first succeeds at
    every step and ends on the marker-free document. *)
Lemma deleteEach_reverse l :
  forall doc,
    below doc 0 = l ->
    exists doc',
      deleteEach (rev l) doc = Some doc' /\
      below doc' 0 = [].
Proof.
  induction l as [|[p z] l IH] using rev_ind; intros doc Hl.
  - exists doc. simpl. auto.
  - rewrite rev_app_distr. simpl.
    destruct (proj1 delete_last_marker doc 0 l p z Hl) as (d1 & Hdel & Hb & _).
    unfold tr_delete. rewrite Z.sub_0_r in Hdel. rewrite Hdel.
    destruct (IH d1 Hb) as (doc' & Hrun & Hnone).
    exists doc'. split; [exact Hrun|exact Hnone].
Qed.

End DocFacts.

(** [removeAllPageBreaks] never fails. *)
Lemma removeAllPageBreaks_total doc :
  exists doc', Doc.removeAllPageBreaks doc = Some doc'.
Proof.
  destruct (DocFacts.deleteEach_reverse (Doc.below doc 0) doc eq_refl)
    as (doc' & Hrun & _).
  exists doc'. unfold Doc.removeAllPageBreaks.
  rewrite DocFacts.findPageBreaks_markersOf. exact Hrun.
Qed.

(** ** C6 *)



(* ================================================================== *)
(** * Properties of the metrics pass *)
(* ================================================================== *)

Module MetricsFacts.
Import Metrics.

Lemma filter_snoc {A : Type} (f : A -> bool) l x :
  filter f (l ++ [x]) = if f x then filter f l ++ [x] else filter f l.
Proof.
  rewrite filter_app. simpl. destruct (f x); [reflexivity|apply app_nil_r].
Qed.

(** The pass over the real view and the pass over the view in which
    missing elements have height 0 stay in step: same running height, and
    the real records are the other pass's records of rendered nodes. *)
Lemma measure_in_step view visited :
  forall acc acc0,
    cumulativeHeight acc = cumulativeHeight acc0 ->
    collectedHeights acc = filter (rendered view) (collectedHeights acc0) ->
    let out := fold_left (measureNode view) visited acc in
    let out0 := fold_left (measureNode (missingAsZero view)) visited acc0 in
    cumulativeHeight out = cumulativeHeight out0 /\
    collectedHeights out = filter (rendered view) (collectedHeights out0).
Proof.
  induction visited as [|[node p] rest IH]; intros acc acc0 Hcum Hrec; simpl.
  - auto.
  - apply IH.
    + unfold measureNode, missingAsZero. cbn [nodeDOM].
      destruct (Doc.isBlock node && negb (Doc.typeName node =? "pageBreak")%string);
        [|exact Hcum].
      destruct (nodeDOM view p) as [h|]; cbn [cumulativeHeight]; lia.
    + unfold measureNode, missingAsZero. cbn [nodeDOM].
      destruct (Doc.isBlock node && negb (Doc.typeName node =? "pageBreak")%string);
        [|exact Hrec].
      destruct (nodeDOM view p) as [h|] eqn:Hdom; cbn [collectedHeights];
        rewrite filter_snoc; unfold rendered; cbn [pos]; rewrite Hdom.
      * rewrite Hrec, Hcum. reflexivity.
      * exact Hrec.
Qed.

End MetricsFacts.

(** ** C8 *)

(** The sentence of C8 fails: of two paragraphs the first of which has no
    rendered element, the pass yields a single record, the second
    paragraph's; the first paragraph gets no record, of height 0 or
    otherwise. *)
Lemma C8_unrendered_node_gets_no_record :
  let view := {| Metrics.doc :=
                   Doc.Branch Doc.DocRoot
                     [ Doc.Branch Doc.Paragraph [Doc.Text 3];
                       Doc.Branch Doc.Paragraph [Doc.Text 2] ];
                 Metrics.scrollHeight := 40;
                 Metrics.nodeDOM := fun p => if p =? 5 then Some 40 else None |} in
  In (Doc.Branch Doc.Paragraph [Doc.Text 3], 0)
     (Doc.nodesBelow (Metrics.doc view) 0) /\
  Metrics.nodeDOM view 0 = None /\
  nodeHeights (Metrics.updateMetrics view) =
    [ {| type := "paragraph"; height := 40; top := 0; pos := 5 |} ] /\
  ~ recordedWithHeightZero view 0.
Proof.
  intros view. split; [left; reflexivity|]. split; [reflexivity|].
  split; [reflexivity|].
  intros (r & Hin & Hpos & _).
  destruct Hin as [<-|[]]. discriminate Hpos.
Qed.

(** C8, amended.  A metrics pass always completes, and a block node whose
    rendered element is unavailable contributes no record: the records of
    the pass are exactly the records of the nodes that have an element,
    each with the [top] it would have had the missing elements been of
    height 0. *)
Theorem C8_unrendered_node_is_skipped :
  forall view,
    nodeHeights (Metrics.updateMetrics view) =
      filter (Metrics.rendered view)
             (nodeHeights (Metrics.updateMetrics (Metrics.missingAsZero view))) /\
    Forall (fun r => Metrics.nodeDOM view (pos r) = Some (height r))
           (nodeHeights (Metrics.updateMetrics view)).
Proof.
  intros view. split.
  - unfold Metrics.updateMetrics. cbn [nodeHeights]. unfold Doc.descendants.
    apply (MetricsFacts.measure_in_step view); reflexivity.
  - unfold Metrics.updateMetrics. cbn [nodeHeights]. unfold Doc.descendants.
    set (Ok := fun acc => Forall (fun r => Metrics.nodeDOM view (pos r) = Some (height r))
                                 (Metrics.collectedHeights acc)).
    assert (H : forall visited acc, Ok acc ->
                  Ok (fold_left (Metrics.measureNode view) visited acc)).
    { induction visited as [|[node p] rest IH]; intros acc Hacc; [exact Hacc|].
      simpl. apply IH. unfold Metrics.measureNode.
      destruct (Doc.isBlock node && negb (Doc.typeName node =? "pageBreak")%string);
        [|exact Hacc].
      destruct (Metrics.nodeDOM view p) as [h|] eqn:Hdom; [|exact Hacc].
      unfold Ok. cbn [Metrics.collectedHeights].
      apply Forall_app. split; [exact Hacc|].
      constructor; [exact Hdom|constructor]. }
    apply H. constructor.
Qed.

(* ================================================================== *)
(** * Properties of the reconciler *)
(* ================================================================== *)

Module ManagerFacts.
Import Manager.

Section WithEditor.

Context {D : Type} {E : Editor D}.

Lemma seq_completed (c1 c2 : Cmd D) h h' :
  seq c1 c2 h = (Completed, h') ->
  exists hm, c1 h = (Completed, hm) /\ c2 hm = (Completed, h').
Proof.
  unfold seq. destruct (c1 h) as [[|] hm]; intros H; [eauto|discriminate].
Qed.

Lemma keepsCount_seq (c1 c2 : Cmd D) : keepsCount c1 -> keepsCount c2 -> keepsCount (seq c1 c2).
Proof.
  intros H1 H2 h. unfold seq. specialize (H1 h).
  destruct (c1 h) as [[|] hm]; simpl in *; [|exact H1].
  rewrite H2. exact H1.
Qed.

Lemma keepsCount_forEach {A : Type} (f : A -> Cmd D) xs :
  (forall x, keepsCount (f x)) -> keepsCount (forEach f xs).
Proof.
  intros Hf. induction xs as [|x rest IH]; simpl.
  - intros h. reflexivity.
  - apply keepsCount_seq; [apply Hf|exact IH].
Qed.

Lemma keepsCount_runChain call (run : D -> option D) :
  keepsCount (runChain call run).
Proof.
  intros h. unfold runChain. destruct (run (document h)); reflexivity.
Qed.

Lemma keepsCount_recalculate breaks : keepsCount (recalculate breaks).
Proof.
  unfold recalculate. apply keepsCount_seq.
  - apply keepsCount_runChain.
  - apply keepsCount_forEach. intros b. apply keepsCount_runChain.
Qed.

Lemma debouncedPass_same_count breaks h :
  List.length breaks = lastBreakCountRef h ->
  debouncedPass breaks h = (Completed, h).
Proof.
  intros Heq. unfold debouncedPass.
  rewrite (proj2 (Nat.eqb_eq _ _) Heq). reflexivity.
Qed.

Lemma debouncedPass_records_count breaks h h1 :
  debouncedPass breaks h = (Completed, h1) ->
  lastBreakCountRef h1 = List.length breaks.
Proof.
  unfold debouncedPass.
  destruct (Nat.eqb_spec (List.length breaks) (lastBreakCountRef h)) as [Heq|Hne];
    cbn [negb].
  - intros H. inversion H; subst. symmetry. exact Heq.
  - intros H.
    apply seq_completed in H. destruct H as (h2 & _ & H).
    apply seq_completed in H. destruct H as (h3 & _ & H).
    apply seq_completed in H. destruct H as (h4 & _ & H).
    inversion H. reflexivity.
Qed.

(** One guarded insertion: attempted, and never an exception. *)
Lemma guarded_insertion b h :
  exists hm,
    tryCatch (insertBreak b) (log FailedToInsert) h = (Completed, hm) /\
    calls hm = calls h ++ [CallInsert (insertPos b) (pageNumber b)] /\
    lastBreakCountRef hm = lastBreakCountRef h.
Proof.
  unfold tryCatch, insertBreak, runChain, log.
  destruct (runInsertContentAt (insertPos b) (pageNumber b) (document h)) as [d|];
    eexists; split; try reflexivity; split; reflexivity.
Qed.

(** The guarded insertions of the debounced pass: none of them ends the
    loop, and every planned insertion is attempted, in order. *)
Lemma guarded_insertions_all_attempted breaks :
  forall h,
    exists h',
      forEach (fun b => tryCatch (insertBreak b) (log FailedToInsert)) breaks h
        = (Completed, h') /\
      calls h' = calls h ++
                 map (fun b => CallInsert (insertPos b) (pageNumber b)) breaks /\
      lastBreakCountRef h' = lastBreakCountRef h.
Proof.
  induction breaks as [|b rest IH]; intros h.
  - exists h. simpl. rewrite app_nil_r. auto.
  - destruct (guarded_insertion b h) as (hm & Hstep & Hcalls & Hlast).
    destruct (IH hm) as (h' & Hrun & Hcalls' & Hlast').
    exists h'. cbn [forEach map]. unfold seq. rewrite Hstep, Hrun.
    split; [reflexivity|]. split; [|congruence].
    rewrite Hcalls', Hcalls, <- app_assoc. reflexivity.
Qed.

(** The debounced pass completes whenever the removal does. *)
Lemma debouncedPass_completes breaks h d :
  runRemoveAllPageBreaks (document h) = Some d ->
  exists h', debouncedPass breaks h = (Completed, h').
Proof.
  intros Hrm. unfold debouncedPass.
  destruct (negb (List.length breaks =? lastBreakCountRef h)%nat); [|eexists; reflexivity].
  unfold seq at 1. unfold log at 1. unfold seq at 1.
  unfold removeAll at 1, runChain at 1. cbn [document]. rewrite Hrm.
  unfold seq at 1.
  match goal with |- context [forEach _ breaks ?hm] =>
    destruct (guarded_insertions_all_attempted breaks hm) as (h' & Hrun & _) end.
  rewrite Hrun. eexists. reflexivity.
Qed.

(** A debounced pass whose plan length differs from the recorded count
    first sends the removal to the editor. *)
Lemma debouncedPass_starts_with_removal breaks h :
  List.length breaks <> lastBreakCountRef h ->
  exists more,
    calls (snd (debouncedPass breaks h)) = calls h ++ CallRemoveAll :: more.
Proof.
  intros Hne. unfold debouncedPass.
  rewrite (proj2 (Nat.eqb_neq _ _) Hne). cbn [negb].
  unfold seq at 1. unfold log at 1. unfold seq at 1.
  unfold removeAll at 1, runChain at 1. cbn [document calls].
  destruct (runRemoveAllPageBreaks (document h)) as [d|].
  - unfold seq at 1.
    match goal with |- context [forEach _ breaks ?hm] =>
      destruct (guarded_insertions_all_attempted breaks hm)
        as (h' & Hrun & Hcalls & _) end.
    rewrite Hrun. cbn [snd setLastBreakCount calls]. rewrite Hcalls.
    cbn [calls]. rewrite <- app_assoc. eexists. reflexivity.
  - exists []. reflexivity.
Qed.

End WithEditor.

End ManagerFacts.

(** ** C5 *)

(** C5.  A debounced pass whose plan is as long as the recorded count does
    nothing: no command is sent to the editor, nothing is logged, and the
    document (hence its markers) and the count stay as they are.  After a
    pass that ran to its end, a second pass with the same plan is such a
    pass. *)
Theorem C5_same_plan_again_is_noop :
  forall (D : Type) (E : Editor D) (breaks : list PageBreakPosition)
         (h : Manager.Hook D),
    (List.length breaks = Manager.lastBreakCountRef h ->
     Manager.debouncedPass breaks h = (Manager.Completed, h)) /\
    (forall h1,
        Manager.debouncedPass breaks h = (Manager.Completed, h1) ->
        Manager.debouncedPass breaks h1 = (Manager.Completed, h1) /\
        pageBreakPositions (Manager.document (snd (Manager.debouncedPass breaks h1)))
          = pageBreakPositions (Manager.document h1)).
Proof.
  intros D E breaks h. split.
  - apply ManagerFacts.debouncedPass_same_count.
  - intros h1 Hrun.
    assert (Hnoop : Manager.debouncedPass breaks h1 = (Manager.Completed, h1)).
    { apply ManagerFacts.debouncedPass_same_count. symmetry.
      eapply ManagerFacts.debouncedPass_records_count. exact Hrun. }
    split; [exact Hnoop|]. rewrite Hnoop. reflexivity.
Qed.

(** C5 on the reference editor: one marker in the document, one recorded,
    one planned. *)
Lemma C5_same_plan_again_is_noop_witness :
  let h := {| Manager.document :=
                Doc.Branch Doc.DocRoot
                  [ Doc.Branch Doc.Paragraph [Doc.Text 3]; Doc.PageBreak 1;
                    Doc.Branch Doc.Paragraph [Doc.Text 2] ];
              Manager.lastBreakCountRef := 1;
              Manager.console := [];
              Manager.calls := [] |} in
  Manager.debouncedPass [ mkBreak 1 1123 5 0 ] h = (Manager.Completed, h).
Proof.
  intros h.
  destruct (C5_same_plan_again_is_noop Doc.PMNode treeEditor
              [ mkBreak 1 1123 5 0 ] h) as [Hskip _].
  apply Hskip. reflexivity.
Defined.

(** On the reference editor the removal never throws, so the debounced
    pass always runs to its end and a second pass with the same plan
    changes nothing. *)
Lemma debouncedPass_twice_treeEditor breaks (h : Manager.Hook Doc.PMNode) :
  exists h1,
    Manager.debouncedPass breaks h = (Manager.Completed, h1) /\
    Manager.debouncedPass breaks h1 = (Manager.Completed, h1).
Proof.
  destruct (removeAllPageBreaks_total (Manager.document h))
    as (d & Hd).
  destruct (ManagerFacts.debouncedPass_completes (E := treeEditor) breaks h d Hd)
    as (h1 & Hrun).
  exists h1. split; [exact Hrun|].
  apply ManagerFacts.debouncedPass_same_count. symmetry.
  eapply ManagerFacts.debouncedPass_records_count. exact Hrun.
Qed.

(** ** C7 *)

(** C7.  A rule of 3000 pixels followed by a paragraph of 1000 pixels: the
    plan asks for markers at positions 0, 3000 and 1, and position 3000 is
    outside the document.  The debounced pass catches and logs the failure
    and goes on to the third insertion.  [recalculate] has no [try]: the
    exception of the second insertion ends its loop, the third insertion is
    never attempted, and the exception leaves [recalculate]. *)
Theorem C7_recalculate_stops_at_failed_insertion :
  let rule := Doc.HorizontalRule in
  let para := Doc.Branch Doc.Paragraph [Doc.Text 3] in
  let view := {| Metrics.doc := Doc.Branch Doc.DocRoot [rule; para];
                 Metrics.scrollHeight := 4000;
                 Metrics.nodeDOM := fun p => if p =? 0 then Some 3000
                                             else if p =? 1 then Some 1000
                                             else None |} in
  let plan := [ mkBreak 1 1123 0 (-1); mkBreak 2 2246 3000 0;
                mkBreak 3 3369 1 0 ] in
  let h := {| Manager.document := Metrics.doc view;
              Manager.lastBreakCountRef := 0%nat;
              Manager.console := [];
              Manager.calls := [] |} in
  returns (nodeHeights (Metrics.updateMetrics view)) PAGE_HEIGHT plan /\
  Manager.debouncedCallback (Metrics.updateMetrics view) h
    (Manager.Completed,
     {| Manager.document :=
          Doc.Branch Doc.DocRoot [Doc.PageBreak 1; Doc.PageBreak 3; rule; para];
        Manager.lastBreakCountRef := 3%nat;
        Manager.console := [ Manager.UpdatingPageBreaks 0 3 [1123; 2246; 3369];
                             Manager.FailedToInsert ];
        Manager.calls := [ Manager.CallRemoveAll; Manager.CallInsert 0 1;
                           Manager.CallInsert 3000 2; Manager.CallInsert 1 3 ] |}) /\
  Manager.recalculateCallback (Metrics.updateMetrics view) h
    (Manager.Threw,
     {| Manager.document := Doc.Branch Doc.DocRoot [Doc.PageBreak 1; rule; para];
        Manager.lastBreakCountRef := 0%nat;
        Manager.console := [];
        Manager.calls := [ Manager.CallRemoveAll; Manager.CallInsert 0 1;
                           Manager.CallInsert 3000 2 ] |}).
Proof.
  intros rule para view plan h.
  assert (Hplan : returns (nodeHeights (Metrics.updateMetrics view)) PAGE_HEIGHT plan)
    by (exists 2%nat; reflexivity).
  split; [exact Hplan|]. split.
  - exists plan. split; [exact Hplan|reflexivity].
  - exists plan. split; [exact Hplan|reflexivity].
Qed.

(** ** C9 *)

(** C9.  [recalculate] never writes [lastBreakCountRef], whether it runs
    to its end or is left by an exception; a debounced pass that runs to
    its end leaves the count at the length of its plan.  So the debounced
    pass that follows a [recalculate] tests its plan's length against the
    count from before the [recalculate]: it does nothing when the two
    agree, whatever markers [recalculate] has put into the document, and
    starts over with a removal when they differ. *)
Theorem C9_recalculate_keeps_last_count :
  forall (D : Type) (E : Editor D) (breaks : list PageBreakPosition)
         (h : Manager.Hook D),
    let after := snd (Manager.recalculate breaks h) in
    Manager.lastBreakCountRef after = Manager.lastBreakCountRef h /\
    (forall breaks' h1,
        Manager.debouncedPass breaks' h = (Manager.Completed, h1) ->
        Manager.lastBreakCountRef h1 = List.length breaks') /\
    (forall breaks',
        List.length breaks' = Manager.lastBreakCountRef h ->
        Manager.debouncedPass breaks' after = (Manager.Completed, after)) /\
    (forall breaks',
        List.length breaks' <> Manager.lastBreakCountRef h ->
        exists more,
          Manager.calls (snd (Manager.debouncedPass breaks' after)) =
          Manager.calls after ++ Manager.CallRemoveAll :: more).
Proof.
  intros D E breaks h after.
  assert (Hkeep : Manager.lastBreakCountRef after = Manager.lastBreakCountRef h)
    by apply ManagerFacts.keepsCount_recalculate.
  split; [exact Hkeep|]. split; [|split].
  - intros breaks' h1. apply ManagerFacts.debouncedPass_records_count.
  - intros breaks' Hlen. apply ManagerFacts.debouncedPass_same_count.
    rewrite Hkeep. exact Hlen.
  - intros breaks' Hlen. apply ManagerFacts.debouncedPass_starts_with_removal.
    rewrite Hkeep. exact Hlen.
Qed.

(** C9 on the reference editor: nothing recorded, [recalculate] inserts one
    marker, and the next debounced pass, whose plan is empty, leaves that
    marker in the document. *)
Lemma C9_recalculate_keeps_last_count_witness :
  let para := Doc.Branch Doc.Paragraph [Doc.Text 3] in
  let h := {| Manager.document := Doc.Branch Doc.DocRoot [para; para];
              Manager.lastBreakCountRef := 0%nat;
              Manager.console := [];
              Manager.calls := [] |} in
  let after := snd (Manager.recalculate [ mkBreak 1 1123 5 0 ] h) in
  Manager.document after = Doc.Branch Doc.DocRoot [para; Doc.PageBreak 1; para] /\
  Manager.debouncedPass [] after = (Manager.Completed, after).
Proof.
  intros para h after. split; [reflexivity|].
  destruct (C9_recalculate_keeps_last_count Doc.PMNode treeEditor
              [ mkBreak 1 1123 5 0 ] h) as (_ & _ & Hskip & _).
  apply (Hskip []). reflexivity.
Defined.

(* ================================================================== *)
(** * Further properties of the planner *)
(* ================================================================== *)

Module PlannerMore.

(** A node that stays on the current page leaves the locals alone. *)
Lemma visitNode_not_crossing pageHeight node index fuel st :
  nodeBottom node <= currentPageEnd st ->
  visitNode fuel pageHeight node index st = Some st.
Proof.
  intros Hle. unfold visitNode.
  destruct (Z.gtb_spec (nodeBottom node) (currentPageEnd st)); [lia|reflexivity].
Qed.

Lemma forEachNode_not_crossing pageHeight nodes fuel :
  forall index st,
    Forall (fun node => nodeBottom node <= currentPageEnd st) nodes ->
    forEachNode fuel pageHeight nodes index st = Some st.
Proof.
  induction nodes as [|node rest IH]; intros index st Hall; [reflexivity|].
  inversion Hall; subst. rewrite forEachNode_cons.
  rewrite visitNode_not_crossing by assumption. apply IH. assumption.
Qed.

(** With a page height that is not positive, a run that returns has met
    no node reaching beyond the page height. *)
Lemma forEachNode_returns_nonpositive pageHeight nodes fuel :
  pageHeight <= 0 ->
  forall index st st',
    currentPageEnd st = pageHeight ->
    forEachNode fuel pageHeight nodes index st = Some st' ->
    Forall (fun node => nodeBottom node <= pageHeight) nodes.
Proof.
  intros Hph.
  induction nodes as [|node rest IH]; intros index st st' Hcpe Hrun;
    [constructor|].
  rewrite forEachNode_cons in Hrun.
  destruct (Z.le_gt_cases (nodeBottom node) pageHeight) as [Hle|Hgt].
  - rewrite visitNode_not_crossing in Hrun by lia.
    constructor; [exact Hle|]. eapply IH; eassumption.
  - unfold visitNode in Hrun.
    destruct (Z.gtb_spec (nodeBottom node) (currentPageEnd st)); [|lia].
    rewrite whileTaller_diverges in Hrun; [discriminate|exact Hph|simpl; lia].
Qed.


Lemma forEachNode_app pageHeight fuel l1 l2 :
  forall index st,
    forEachNode fuel pageHeight (l1 ++ l2) index st =
    match forEachNode fuel pageHeight l1 index st with
    | Some st1 => forEachNode fuel pageHeight l2
                    (index + Z.of_nat (List.length l1)) st1
    | None => None
    end.
Proof.
  induction l1 as [|node rest IH]; intros index st.
  - simpl. rewrite Z.add_0_r. reflexivity.
  - rewrite <- app_comm_cons, !forEachNode_cons.
    destruct (visitNode fuel pageHeight node index st) as [st1|]; [|reflexivity].
    rewrite IH. cbn [List.length].
    replace (index + 1 + Z.of_nat (List.length rest))
      with (index + Z.of_nat (S (List.length rest))) by lia.
    reflexivity.
Qed.

Section Counting.

Variable pageHeight : Z.
Hypothesis pageHeight_pos : 0 < pageHeight.



End Counting.

End PlannerMore.

(** X1.  [calculatePageBreaks] returns for every positive page height.
    With a page height of 0 or less it returns exactly when no node
    reaches beyond the page height, and then with the empty plan; as soon
    as one node does, the inner loop never ends. *)
Theorem X1_planner_halts :
  forall nodes pageHeight,
    (0 < pageHeight -> exists plan, returns nodes pageHeight plan) /\
    (pageHeight <= 0 ->
     ((exists plan, returns nodes pageHeight plan) <->
      Forall (fun node => nodeBottom node <= pageHeight) nodes) /\
     (forall plan, returns nodes pageHeight plan -> plan = [])).
Proof.
  intros nodes pageHeight. split.
  - apply calculatePageBreaks_terminates.
  - intros Hph.
    assert (Hfwd : forall plan, returns nodes pageHeight plan ->
                     Forall (fun node => nodeBottom node <= pageHeight) nodes).
    { intros plan [fuel Hret]. unfold calculatePageBreaks in Hret.
      destruct (forEachNode fuel pageHeight nodes 0 (initLocals pageHeight))
        as [st'|] eqn:Hrun; [|discriminate].
      eapply PlannerMore.forEachNode_returns_nonpositive; [exact Hph| |exact Hrun].
      reflexivity. }
    assert (Hbwd : Forall (fun node => nodeBottom node <= pageHeight) nodes ->
                   returns nodes pageHeight []).
    { intros Hall. exists 0%nat. unfold calculatePageBreaks.
      rewrite PlannerMore.forEachNode_not_crossing; [reflexivity|exact Hall]. }
    split; [split|].
    + intros [plan Hret]. eapply Hfwd. exact Hret.
    + intros Hall. exists []. apply Hbwd. exact Hall.
    + intros plan Hret. eapply returns_deterministic; [exact Hret|].
      apply Hbwd. eapply Hfwd. exact Hret.
Qed.

(** X1 at a page height of 0: an empty paragraph at the very top does not
    reach beyond it. *)
Lemma X1_planner_halts_witness :
  exists plan, returns [mkNodeHeight "paragraph" 0 0 0] 0 plan.
Proof.
  destruct (X1_planner_halts [mkNodeHeight "paragraph" 0 0 0] 0) as [_ H].
  destruct (H ltac:(lia)) as [[_ Hex] _].
  apply Hex. constructor; [vm_compute; discriminate|constructor].
Defined.

(** X2.  A returned plan is empty exactly when no node's bottom edge
    exceeds the page height. *)
Theorem X2_empty_plan_iff_one_page :
  forall nodes pageHeight plan,
    returns nodes pageHeight plan ->
    (plan = [] <-> Forall (fun node => nodeBottom node <= pageHeight) nodes).
Proof.
  intros nodes pageHeight plan Hret. split.
  - intros ->. destruct Hret as [fuel Hret]. unfold calculatePageBreaks in Hret.
    destruct (forEachNode fuel pageHeight nodes 0 (initLocals pageHeight))
      as [st'|] eqn:Hrun; [|discriminate].
    simpl in Hret. inversion Hret as [Hnil]. clear Hret.
    assert (Hgen : forall rest index st,
               currentPageEnd st = pageHeight ->
               forEachNode fuel pageHeight rest index st = Some st' ->
               Forall (fun node => nodeBottom node <= pageHeight) rest).
    { induction rest as [|node rest IH]; intros index st Hcpe Hr; [constructor|].
      rewrite forEachNode_cons in Hr.
      destruct (visitNode fuel pageHeight node index st) as [st1|] eqn:Hv;
        [|discriminate].
      destruct (visitNode_pushes _ _ _ _ _ _ Hv) as (pushed & Hp & _ & Hfirst & _).
      destruct (forEachNode_extends _ _ _ _ _ _ Hr) as [added Hadded].
      destruct (Z.le_gt_cases (nodeBottom node) pageHeight) as [Hle|Hgt].
      - constructor; [exact Hle|].
        rewrite PlannerMore.visitNode_not_crossing in Hv by lia.
        inversion Hv; subst st1. eapply IH; eassumption.
      - exfalso. destruct Hfirst as [later Hlater]; [lia|].
        rewrite Hadded, Hp, Hlater in Hnil.
        destruct (breaks st); discriminate Hnil. }
    eapply Hgen; [|exact Hrun]. reflexivity.
  - intros Hall. eapply returns_deterministic; [exact Hret|].
    exists 0%nat. unfold calculatePageBreaks.
    rewrite PlannerMore.forEachNode_not_crossing; [reflexivity|exact Hall].
Qed.

(** X2 on two nodes that fill the page exactly. *)
Lemma X2_empty_plan_iff_one_page_witness :
  Forall (fun node => nodeBottom node <= 1123)
         [ mkNodeHeight "heading" 123 0 0; mkNodeHeight "paragraph" 1000 123 9 ].
Proof.
  apply (X2_empty_plan_iff_one_page
           [ mkNodeHeight "heading" 123 0 0; mkNodeHeight "paragraph" 1000 123 9 ]
           1123 []).
  - exists 0%nat. reflexivity.
  - reflexivity.
Defined.





(** X5.  Planning is incremental in the list: the plan of a list extended
    by further nodes starts with the plan of the list itself; nodes that
    come later never change a break planned before them. *)
Theorem X5_plan_of_prefix :
  forall nodes more pageHeight plan,
    returns (nodes ++ more) pageHeight plan ->
    exists planned added,
      returns nodes pageHeight planned /\ plan = planned ++ added.
Proof.
  intros nodes more pageHeight plan [fuel Hret]. unfold calculatePageBreaks in Hret.
  rewrite PlannerMore.forEachNode_app in Hret.
  destruct (forEachNode fuel pageHeight nodes 0 (initLocals pageHeight))
    as [st1|] eqn:Hrun1; [|discriminate].
  destruct (forEachNode fuel pageHeight more (0 + Z.of_nat (List.length nodes)) st1)
    as [st'|] eqn:Hrun2; [|discriminate].
  simpl in Hret. inversion Hret; subst plan.
  destruct (forEachNode_extends _ _ _ _ _ _ Hrun2) as [added Hadded].
  exists (breaks st1), added. split; [|exact Hadded].
  exists fuel. unfold calculatePageBreaks. rewrite Hrun1. reflexivity.
Qed.

(** X5 on a short node followed by an oversized one. *)
Lemma X5_plan_of_prefix_witness :
  exists planned added,
    returns [mkNodeHeight "paragraph" 1200 0 0] 1123 planned /\
    [ mkBreak 1 1123 0 (-1); mkBreak 2 2246 7 0 ] = planned ++ added.
Proof.
  apply (X5_plan_of_prefix [mkNodeHeight "paragraph" 1200 0 0]
           [mkNodeHeight "paragraph" 1200 1200 7] 1123).
  exists 2%nat. reflexivity.
Defined.

(* ================================================================== *)
(** * Further properties of the metrics pass *)
(* ================================================================== *)

Module MetricsMore.
Import Doc Metrics.

Lemma sumHeights_snoc l r : sumHeights (l ++ [r]) = sumHeights l + height r.
Proof.
  unfold sumHeights. induction l as [|a l IH]; simpl; [lia|].
  rewrite IH. lia.
Qed.

Lemma contiguousFrom_snoc l :
  forall t r,
    contiguousFrom t l = true ->
    top r = t + sumHeights l ->
    0 <= height r ->
    contiguousFrom t (l ++ [r]) = true.
Proof.
  induction l as [|a l IH]; intros t r Hc Htop Hh.
  - unfold sumHeights in Htop. simpl in *.
    rewrite (proj2 (Z.eqb_eq _ _)) by lia.
    rewrite (proj2 (Z.leb_le _ _)) by lia. reflexivity.
  - simpl in Hc. apply andb_prop in Hc. destruct Hc as [Hc Hrest].
    simpl. rewrite Hc. cbn [andb]. apply IH; [exact Hrest| |exact Hh].
    unfold sumHeights in *. simpl in Htop. lia.
Qed.

(** The callback keeps the collected records contiguous and the running
    height equal to their total. *)
Lemma measure_contiguous view visited :
  (forall p h, nodeDOM view p = Some h -> 0 <= h) ->
  forall acc,
    contiguousFrom 0 (collectedHeights acc) = true ->
    cumulativeHeight acc = sumHeights (collectedHeights acc) ->
    let out := fold_left (measureNode view) visited acc in
    contiguousFrom 0 (collectedHeights out) = true /\
    cumulativeHeight out = sumHeights (collectedHeights out).
Proof.
  intros Hnonneg.
  induction visited as [|[node p] rest IH]; intros acc Hc Hsum; simpl; [auto|].
  apply IH.
  - unfold measureNode.
    destruct (isBlock node && negb (typeName node =? "pageBreak")%string);
      [|exact Hc].
    destruct (nodeDOM view p) as [h|] eqn:Hdom; [|exact Hc].
    cbn [collectedHeights]. apply contiguousFrom_snoc; [exact Hc| |].
    + cbn [top]. lia.
    + cbn [height]. eapply Hnonneg. exact Hdom.
  - unfold measureNode.
    destruct (isBlock node && negb (typeName node =? "pageBreak")%string);
      [|exact Hsum].
    destruct (nodeDOM view p) as [h|] eqn:Hdom; [|exact Hsum].
    cbn [collectedHeights cumulativeHeight]. rewrite sumHeights_snoc.
    cbn [height]. lia.
Qed.

Lemma nodeHeights_contiguous view :
  (forall p h, nodeDOM view p = Some h -> 0 <= h) ->
  contiguous (nodeHeights (updateMetrics view)) = true.
Proof.
  intros Hnonneg. unfold updateMetrics, descendants. cbn [nodeHeights].
  apply (measure_contiguous view _ Hnonneg); reflexivity.
Qed.

(** The records, read as (type, position), are the measured nodes in the
    order of the visit. *)
Lemma measure_records view visited :
  forall acc,
    map (fun r => (type r, pos r))
        (collectedHeights (fold_left (measureNode view) visited acc)) =
    map (fun r => (type r, pos r)) (collectedHeights acc) ++
    map (fun np => (typeName (fst np), snd np)) (filter (measured view) visited).
Proof.
  induction visited as [|[node p] rest IH]; intros acc; simpl.
  - symmetry. apply app_nil_r.
  - rewrite IH. unfold measureNode, measured. cbn [fst snd].
    destruct (isBlock node && negb (typeName node =? "pageBreak")%string);
      [|reflexivity].
    destruct (nodeDOM view p) as [h|]; [|reflexivity].
    cbn [collectedHeights andb]. rewrite map_app, <- app_assoc. reflexivity.
Qed.

Lemma ascending_later a l :
  ascending (a :: l) = true -> Forall (fun y => a < y) l.
Proof.
  revert a. induction l as [|b l IH]; intros a H; [constructor|].
  simpl in H. apply andb_prop in H. destruct H as [Hab Hrest].
  apply Z.ltb_lt in Hab. constructor; [exact Hab|].
  eapply Forall_impl; [|apply IH; exact Hrest]. simpl. intros; lia.
Qed.

Lemma ascending_cons a l :
  Forall (fun y => a < y) l -> ascending l = true -> ascending (a :: l) = true.
Proof.
  intros Hall Hasc. destruct l as [|b l]; [reflexivity|].
  inversion Hall; subst.
  change (((a <? b) && ascending (b :: l)) = true).
  rewrite Hasc, andb_true_r. apply Z.ltb_lt. assumption.
Qed.

Lemma ascending_tail a l : ascending (a :: l) = true -> ascending l = true.
Proof.
  destruct l as [|b l]; [reflexivity|].
  simpl. intros H. apply andb_prop in H. apply H.
Qed.

(** Leaving elements out of a growing sequence keeps it growing. *)
Lemma ascending_filter {A : Type} (f : A -> Z) (keep : A -> bool) l :
  ascending (map f l) = true -> ascending (map f (filter keep l)) = true.
Proof.
  induction l as [|a l IH]; intros H; [reflexivity|].
  simpl in H. pose proof (ascending_later _ _ H) as Hlater.
  apply ascending_tail in H. specialize (IH H).
  simpl. destruct (keep a); [|exact IH].
  simpl. apply ascending_cons; [|exact IH].
  rewrite Forall_forall in *. intros y Hy.
  apply in_map_iff in Hy. destruct Hy as (x & <- & Hx).
  apply filter_In in Hx. apply Hlater. apply in_map. apply Hx.
Qed.

(** [descendants] visits positions in growing order, all of them inside
    the visited content. *)
Lemma visited_positions :
  (forall n s,
      ascending (map snd (nodesBelow n s)) = true /\
      Forall (fun q => s <= q < s + contentSize (content n))
             (map snd (nodesBelow n s))) /\
  (forall c s,
      ascending (map snd (fragmentDescendants nodesBelow c s)) = true /\
      Forall (fun q => s <= q < s + contentSize c)
             (map snd (fragmentDescendants nodesBelow c s))).
Proof.
  apply DocFacts.node_fragment_ind;
    try (intros; split; [reflexivity|constructor]).
  - intros ty c Hc s. exact (Hc s).
  - intros x r Hx Hr s.
    destruct (Hx (s + 1)) as [HxA HxB].
    destruct (Hr (s + nodeSize x)) as [HrA HrB].
    pose proof (DocFacts.nodeSize_pos x) as Hsz.
    pose proof (DocFacts.contentSize_nonneg r) as Hr0.
    assert (HxB' : Forall (fun q => s + 1 <= q < s + nodeSize x)
                          (map snd (nodesBelow x (s + 1)))).
    { eapply Forall_impl; [|exact HxB]. simpl. intros q Hq.
      destruct x as [len| | |k|ty cx]; simpl content in Hq;
        unfold contentSize in Hq; simpl in Hq; try lia.
      rewrite DocFacts.nodeSize_Branch. unfold contentSize. lia. }
    simpl fragmentDescendants. rewrite DocFacts.contentSize_cons.
    cbn [map snd]. rewrite map_app. split.
    + apply ascending_cons.
      * apply Forall_app. split.
        -- eapply Forall_impl; [|exact HxB']. simpl. intros; lia.
        -- eapply Forall_impl; [|exact HrB]. simpl. intros; lia.
      * apply DocFacts.ascending_app; [exact HxA|exact HrA|].
        rewrite Forall_forall in HxB', HrB. intros a b Ha Hb.
        specialize (HxB' a Ha). specialize (HrB b Hb). simpl in *. lia.
    + constructor; [lia|]. apply Forall_app. split.
      * eapply Forall_impl; [|exact HxB']. simpl. intros; lia.
      * eapply Forall_impl; [|exact HrB]. simpl. intros; lia.
Qed.

Lemma ceilDiv_bounds a b :
  0 < b -> (ceilDiv a b - 1) * b < a <= ceilDiv a b * b.
Proof.
  intros Hb. unfold ceilDiv.
  pose proof (Z.div_mod (- a) b ltac:(lia)) as Hdm.
  pose proof (Z.mod_pos_bound (- a) b Hb) as Hmod.
  nia.
Qed.

Lemma strictCrossings_ceilDiv a b :
  0 < b -> 0 < a -> strictCrossings a b = ceilDiv a b - 1.
Proof.
  intros Hb Ha. pose proof (ceilDiv_bounds a b Hb) as Hc.
  unfold strictCrossings.
  pose proof (Z.div_mod a b ltac:(lia)) as Hdm.
  pose proof (Z.mod_pos_bound a b Hb) as Hmod.
  rewrite (proj2 (Z.ltb_lt 0 a) Ha). cbn [andb].
  destruct (Z.eqb_spec (a mod b) 0) as [Hr|Hr]; nia.
Qed.

End MetricsMore.

(** X6.  When no rendered element has a negative [offsetHeight], the
    records of a metrics pass satisfy the contiguity invariant: the first
    [top] is 0, every [top] is the previous [top] plus the previous
    [height], and every height is non-negative. *)
Theorem X6_nodeHeights_contiguous :
  forall view,
    (forall p h, Metrics.nodeDOM view p = Some h -> 0 <= h) ->
    contiguous (nodeHeights (Metrics.updateMetrics view)) = true.
Proof.
  intros view Hnonneg. apply MetricsMore.nodeHeights_contiguous. exact Hnonneg.
Qed.

(** X6 on a heading and a paragraph inside a quote. *)
Lemma X6_nodeHeights_contiguous_witness :
  contiguous
    (nodeHeights
       (Metrics.updateMetrics
          {| Metrics.doc :=
               Doc.Branch Doc.DocRoot
                 [ Doc.Branch Doc.Heading [Doc.Text 5];
                   Doc.Branch Doc.Blockquote
                     [Doc.Branch Doc.Paragraph [Doc.Text 2]] ];
             Metrics.scrollHeight := 100;
             Metrics.nodeDOM := fun p => if p <? 9 then Some 30 else None |}))
  = true.
Proof.
  apply X6_nodeHeights_contiguous.
  intros p h. cbn [Metrics.nodeDOM].
  destruct (p <? 9); intros H; inversion H; lia.
Defined.

(** X7.  The records of a metrics pass are one per rendered block node
    other than a marker, in document order, each with its node's type
    name and position; their positions are strictly increasing and none of
    them is a [pageBreak] record. *)
Theorem X7_records_follow_the_document :
  forall view,
    let records := nodeHeights (Metrics.updateMetrics view) in
    map (fun r => (type r, pos r)) records =
      map (fun np => (Doc.typeName (fst np), snd np))
          (filter (measured view) (Doc.nodesBelow (Metrics.doc view) 0)) /\
    ascending (map pos records) = true /\
    Forall (fun r => type r <> "pageBreak"%string) records.
Proof.
  intros view records.
  assert (Hrec : map (fun r => (type r, pos r)) records =
                 map (fun np => (Doc.typeName (fst np), snd np))
                     (filter (measured view) (Doc.nodesBelow (Metrics.doc view) 0))).
  { unfold records, Metrics.updateMetrics, Doc.descendants. cbn [nodeHeights].
    rewrite MetricsMore.measure_records. reflexivity. }
  split; [exact Hrec|]. split.
  - replace (map pos records) with (map snd (map (fun r => (type r, pos r)) records))
      by (rewrite map_map; reflexivity).
    rewrite Hrec, map_map. cbn [snd].
    apply MetricsMore.ascending_filter.
    apply (proj1 MetricsMore.visited_positions).
  - assert (Hall : Forall (fun tp : string * Z => fst tp <> "pageBreak"%string)
                          (map (fun r => (type r, pos r)) records)).
    { rewrite Hrec. apply Forall_forall. intros tp Htp.
      apply in_map_iff in Htp. destruct Htp as (np & <- & Hnp).
      apply filter_In in Hnp. destruct Hnp as [_ Hm]. unfold measured in Hm.
      apply andb_prop in Hm. destruct Hm as [Hm _].
      apply andb_prop in Hm. destruct Hm as [_ Hm].
      cbn [fst]. intros Heq. rewrite Heq in Hm. discriminate Hm. }
    rewrite Forall_forall in *. intros r Hr.
    apply (Hall (type r, pos r)). apply (in_map (fun r => (type r, pos r))). exact Hr.
Qed.

(** X8.  The aggregate figures of a snapshot agree with one another:
    [pageCount] is the least number of pages of [PAGE_HEIGHT] pixels that
    hold [contentHeight]; the content overflows exactly when that number is
    at least 2, which is exactly when [overflowAmount] is positive, and
    [overflowAmount] is then what exceeds the first page. *)
Theorem X8_aggregates_agree :
  forall view,
    let m := Metrics.updateMetrics view in
    contentHeight m = Metrics.scrollHeight view /\
    (pageCount m - 1) * PAGE_HEIGHT < contentHeight m <= pageCount m * PAGE_HEIGHT /\
    (isOverflowing m = true <-> 2 <= pageCount m) /\
    (isOverflowing m = true <-> 0 < overflowAmount m) /\
    (isOverflowing m = true -> overflowAmount m = contentHeight m - PAGE_HEIGHT) /\
    (isOverflowing m = false -> overflowAmount m = 0).
Proof.
  intros view m. unfold m, Metrics.updateMetrics.
  cbn [contentHeight pageCount isOverflowing overflowAmount].
  pose proof (MetricsMore.ceilDiv_bounds (Metrics.scrollHeight view) PAGE_HEIGHT
                ltac:(reflexivity)) as Hc.
  set (H := Metrics.scrollHeight view) in *.
  set (c := Metrics.ceilDiv H PAGE_HEIGHT) in *.
  assert (HP : PAGE_HEIGHT = 1123) by reflexivity.
  split; [reflexivity|]. split; [exact Hc|].
  destruct (Z.gtb_spec H PAGE_HEIGHT) as [Hgt|Hle].
  - repeat split; intros; try lia; try nia.
  - repeat split; intros; try discriminate; try lia; try nia.
Qed.

(** X8 at a content height of 2500 pixels. *)
Lemma X8_aggregates_agree_witness :
  overflowAmount
    (Metrics.updateMetrics
       {| Metrics.doc := Doc.Branch Doc.DocRoot [];
          Metrics.scrollHeight := 2500;
          Metrics.nodeDOM := fun _ => None |}) = 2500 - PAGE_HEIGHT.
Proof.
  destruct (X8_aggregates_agree
              {| Metrics.doc := Doc.Branch Doc.DocRoot [];
                 Metrics.scrollHeight := 2500;
                 Metrics.nodeDOM := fun _ => None |})
    as (_ & _ & _ & _ & Hamount & _).
  apply Hamount. reflexivity.
Defined.

(** X9.  From a metrics pass to the plan: when no rendered element has a
    negative height, the planner returns on the records of the pass, with
    as many breaks as page boundaries lie strictly below the total of the
    recorded heights; when that total is the measured [contentHeight] and
    is positive, the plan has [pageCount - 1] breaks. *)
Theorem X9_breaks_match_page_count :
  forall view,
    (forall p h, Metrics.nodeDOM view p = Some h -> 0 <= h) ->
    let m := Metrics.updateMetrics view in
    exists plan,
      returns (nodeHeights m) PAGE_HEIGHT plan /\
      Z.of_nat (List.length plan) =
        strictCrossings (sumHeights (nodeHeights m)) PAGE_HEIGHT /\
      (contentHeight m = sumHeights (nodeHeights m) ->
       0 < contentHeight m ->
       Z.of_nat (List.length plan) = pageCount m - 1).
Proof.
  intros view Hnonneg m.
  assert (Hpos : 0 < PAGE_HEIGHT) by reflexivity.
  destruct (calculatePageBreaks_terminates (nodeHeights m) PAGE_HEIGHT Hpos)
    as [plan Hret].
  exists plan. split; [exact Hret|].
  assert (Hcount : Z.of_nat (List.length plan) =
                   strictCrossings (sumHeights (nodeHeights m)) PAGE_HEIGHT).
  { destruct Hret as [fuel Hret]. unfold calculatePageBreaks in Hret.
    destruct (forEachNode fuel PAGE_HEIGHT (nodeHeights m) 0 (initLocals PAGE_HEIGHT))
      as [st'|] eqn:Hrun; [|discriminate].
    simpl in Hret. inversion Hret; subst plan.
    apply (countedUpTo_crossings PAGE_HEIGHT Hpos).
    change (sumHeights (nodeHeights m)) with (0 + sumHeights (nodeHeights m)).
    eapply forEachNode_counted; [exact Hpos| | |exact Hrun].
    - apply MetricsMore.nodeHeights_contiguous. exact Hnonneg.
    - unfold countedUpTo, initLocals.
      cbn [curPageNumber currentPageEnd breaks List.length].
      repeat split; try lia. }
  split; [exact Hcount|].
  intros Hsum Hcontent. rewrite Hcount, <- Hsum.
  apply MetricsMore.strictCrossings_ceilDiv; assumption.
Qed.

(** X9 on two paragraphs of 1123 pixels: two pages, one break. *)
Lemma X9_breaks_match_page_count_witness :
  exists plan,
    returns [ mkNodeHeight "paragraph" 1123 0 0;
              mkNodeHeight "paragraph" 1123 1123 5 ] PAGE_HEIGHT plan /\
    Z.of_nat (List.length plan) = 1.
Proof.
  destruct (X9_breaks_match_page_count
              {| Metrics.doc :=
                   Doc.Branch Doc.DocRoot
                     [ Doc.Branch Doc.Paragraph [Doc.Text 3];
                       Doc.Branch Doc.Paragraph [Doc.Text 2] ];
                 Metrics.scrollHeight := 2246;
                 Metrics.nodeDOM := fun p => if (p =? 0) || (p =? 5)
                                             then Some 1123 else None |})
    as (plan & Hret & _ & Hcount).
  - intros p h. cbn [Metrics.nodeDOM].
    destruct ((p =? 0) || (p =? 5)); intros H; inversion H; lia.
  - exists plan. split; [exact Hret|]. apply Hcount; reflexivity.
Defined.

(* ================================================================== *)
(** * Further properties of [removeAllPageBreaks] *)
(* ================================================================== *)

(** X10.  [removeAllPageBreaks] always succeeds, and running it again on
    its own result changes nothing (with no marker left, no range is
    deleted). *)
Theorem X10_removeAllPageBreaks_idempotent :
  forall doc,
    exists doc',
      Doc.removeAllPageBreaks doc = Some doc' /\
      Doc.removeAllPageBreaks doc' = Some doc'.
Proof.
  intros doc.
  destruct (DocFacts.deleteEach_reverse (Doc.below doc 0) doc eq_refl)
    as (doc' & Hrun & Hnone).
  exists doc'. unfold Doc.removeAllPageBreaks.
  rewrite !DocFacts.findPageBreaks_markersOf.
  split; [exact Hrun|].
  change (Doc.markersOf (Doc.nodesBelow doc' 0)) with (Doc.below doc' 0).
  rewrite Hnone. reflexivity.
Qed.

(* ================================================================== *)
(** * Further properties of the reconciler *)
(* ================================================================== *)

Module ManagerMore.
Import Manager.

Section WithEditor.

Context {D : Type} {E : Editor D}.

(** One guarded insertion, in full: the call is made, the count stays,
    and the console grows by one error exactly when the call throws. *)
Lemma guarded_insertion_full b h :
  exists hm,
    tryCatch (insertBreak b) (log FailedToInsert) h = (Completed, hm) /\
    calls hm = calls h ++ [insertCall b] /\
    lastBreakCountRef hm = lastBreakCountRef h /\
    match runInsertContentAt (insertPos b) (pageNumber b) (document h) with
    | Some d => document hm = d /\ console hm = console h
    | None => document hm = document h /\
              console hm = console h ++ [FailedToInsert]
    end.
Proof.
  unfold tryCatch, insertBreak, runChain, log, insertCall.
  destruct (runInsertContentAt (insertPos b) (pageNumber b) (document h)) as [d|];
    eexists; split; try reflexivity; repeat split; reflexivity.
Qed.

(** The guarded loop of the debounced pass, in full. *)
Lemma guarded_insertions_skipping breaks :
  forall h,
    forEach (fun b => tryCatch (insertBreak b) (log FailedToInsert)) breaks h =
    (Completed,
     {| document := fst (insertSkipping breaks (document h));
        lastBreakCountRef := lastBreakCountRef h;
        console := console h ++
                   repeat FailedToInsert (snd (insertSkipping breaks (document h)));
        calls := calls h ++ map insertCall breaks |}).
Proof.
  induction breaks as [|b rest IH]; intros [d l c cs].
  - simpl. rewrite !app_nil_r. reflexivity.
  - cbn [forEach insertSkipping map]. unfold seq, tryCatch.
    unfold insertBreak at 1, runChain at 1. cbn [document].
    destruct (runInsertContentAt (insertPos b) (pageNumber b) d) as [d'|].
    + rewrite IH. cbn [document lastBreakCountRef console calls].
      rewrite <- app_assoc. reflexivity.
    + unfold log at 1. rewrite IH.
      cbn [document lastBreakCountRef console calls fst snd repeat].
      rewrite <- !app_assoc. reflexivity.
Qed.

(** Where the unguarded loop runs to its end, the guarded loop does the
    same to the editor and logs nothing. *)
Lemma guarded_follows_unguarded breaks :
  forall h h1 g,
    sameEditor h g ->
    forEach insertBreak breaks h = (Completed, h1) ->
    exists g1,
      forEach (fun b => tryCatch (insertBreak b) (log FailedToInsert)) breaks g
        = (Completed, g1) /\
      sameEditor h1 g1 /\
      console g1 = console g /\
      lastBreakCountRef g1 = lastBreakCountRef g.
Proof.
  induction breaks as [|b rest IH]; intros h h1 g [Hd Hc] Hrun.
  - simpl in Hrun. inversion Hrun; subst. exists g. simpl.
    repeat split; assumption.
  - cbn [forEach] in *. unfold seq in *.
    destruct (guarded_insertion_full b g) as (gm & Hstep & Hcalls & Hlast & Hdoc).
    rewrite Hstep.
    unfold insertBreak at 1, runChain at 1 in Hrun.
    rewrite <- Hd in Hdoc.
    destruct (runInsertContentAt (insertPos b) (pageNumber b) (document h)) as [d|];
      [|discriminate].
    destruct Hdoc as [Hgd Hgc].
    match type of Hrun with forEach _ _ ?hm = _ =>
      destruct (IH hm h1 gm) as (g1 & Hg1 & Hsame & Hcons & Hl) end.
    + split; cbn [document calls]; [symmetry; exact Hgd|].
      rewrite Hcalls, Hc. reflexivity.
    + exact Hrun.
    + exists g1. split; [exact Hg1|]. split; [exact Hsame|].
      split; congruence.
Qed.

(** The unguarded loop of [recalculate] where every insertion succeeds. *)
Lemma unguarded_all breaks :
  forall h dn,
    insertAll breaks (document h) = Some dn ->
    forEach insertBreak breaks h =
    (Completed,
     {| document := dn;
        lastBreakCountRef := lastBreakCountRef h;
        console := console h;
        calls := calls h ++ map insertCall breaks |}).
Proof.
  induction breaks as [|b rest IH]; intros [d l c cs] dn Hall.
  - simpl in *. inversion Hall; subst. rewrite app_nil_r. reflexivity.
  - cbn [forEach insertAll map document] in *. unfold seq.
    unfold insertBreak at 1, runChain at 1. cbn [document].
    destruct (runInsertContentAt (insertPos b) (pageNumber b) d) as [d'|];
      [|discriminate].
    erewrite IH; [|exact Hall]. cbn [document lastBreakCountRef console calls].
    rewrite <- app_assoc. reflexivity.
Qed.

(** ... and where one of them throws: the loop ends there. *)
Lemma unguarded_stops before :
  forall h b after dm,
    insertAll before (document h) = Some dm ->
    runInsertContentAt (insertPos b) (pageNumber b) dm = None ->
    forEach insertBreak (before ++ b :: after) h =
    (Threw,
     {| document := dm;
        lastBreakCountRef := lastBreakCountRef h;
        console := console h;
        calls := calls h ++ map insertCall (before ++ [b]) |}).
Proof.
  induction before as [|a rest IH]; intros [d l c cs] b after dm Hall Hfail.
  - simpl in Hall. inversion Hall; subst dm.
    cbn [app forEach map]. unfold seq.
    unfold insertBreak at 1, runChain at 1. cbn [document]. rewrite Hfail.
    reflexivity.
  - cbn [app forEach insertAll map document] in *. unfold seq.
    unfold insertBreak at 1, runChain at 1. cbn [document].
    destruct (runInsertContentAt (insertPos a) (pageNumber a) d) as [d'|];
      [|discriminate].
    erewrite IH; [|exact Hall|exact Hfail].
    cbn [document lastBreakCountRef console calls].
    rewrite <- app_assoc. reflexivity.
Qed.

End WithEditor.

End ManagerMore.

(** X12.  A debounced pass whose plan length differs from the recorded
    count, on a document from which the markers can be removed, runs to
    its end whatever the insertions do.  It asks for the removal and then
    for every planned insertion, in plan order, each on the document the
    earlier ones have left; an insertion that throws leaves the document
    as it is and puts one error on the console, and the pass goes on with
    the next one.  It records the plan length as the new count.  The
    console gains the line for the update followed by exactly as many
    errors as insertions threw: none exactly when every insertion
    succeeds. *)
Theorem X12_debounced_pass_rewrites :
  forall (D : Type) (E : Editor D) (breaks : list PageBreakPosition)
         (h : Manager.Hook D) (d : D),
    List.length breaks <> Manager.lastBreakCountRef h ->
    runRemoveAllPageBreaks (Manager.document h) = Some d ->
    Manager.debouncedPass breaks h =
      (Manager.Completed,
       {| Manager.document := fst (insertSkipping breaks d);
          Manager.lastBreakCountRef := List.length breaks;
          Manager.console :=
            Manager.console h ++
            Manager.UpdatingPageBreaks (Manager.lastBreakCountRef h)
              (List.length breaks) (map position breaks)
            :: repeat Manager.FailedToInsert (snd (insertSkipping breaks d));
          Manager.calls :=
            Manager.calls h ++ Manager.CallRemoveAll :: map insertCall breaks |}) /\
    (snd (insertSkipping breaks d) = 0%nat <-> insertAll breaks d <> None).
Proof.
  intros D E breaks h d Hne Hrm. split.
  - unfold Manager.debouncedPass.
    rewrite (proj2 (Nat.eqb_neq _ _) Hne). cbn [negb].
    unfold Manager.seq at 1. unfold Manager.log at 1. unfold Manager.seq at 1.
    unfold Manager.removeAll at 1, Manager.runChain at 1.
    cbn [Manager.document]. rewrite Hrm.
    unfold Manager.seq at 1.
    rewrite ManagerMore.guarded_insertions_skipping.
    unfold Manager.setLastBreakCount.
    cbn [Manager.document Manager.lastBreakCountRef Manager.console Manager.calls].
    rewrite <- !app_assoc. reflexivity.
  - clear Hne Hrm h. revert d.
    induction breaks as [|b rest IH]; intros d; cbn [insertSkipping insertAll].
    + split; [discriminate|reflexivity].
    + destruct (runInsertContentAt (insertPos b) (pageNumber b) d) as [d'|].
      * apply IH.
      * cbn [snd]. split; [discriminate|intros H; exfalso; apply H; reflexivity].
Qed.

(** X12 on the reference editor, with a second insertion out of range:
    one error on the console. *)
Lemma X12_debounced_pass_rewrites_witness :
  Manager.debouncedPass [ mkBreak 1 1123 0 (-1); mkBreak 2 2246 900 0 ]
    {| Manager.document := Doc.Branch Doc.DocRoot [Doc.HorizontalRule];
       Manager.lastBreakCountRef := 0%nat;
       Manager.console := [];
       Manager.calls := [] |} =
  (Manager.Completed,
   {| Manager.document :=
        Doc.Branch Doc.DocRoot [Doc.PageBreak 1; Doc.HorizontalRule];
      Manager.lastBreakCountRef := 2%nat;
      Manager.console :=
        [ Manager.UpdatingPageBreaks 0 2 [1123; 2246]; Manager.FailedToInsert ];
      Manager.calls :=
        [ Manager.CallRemoveAll; Manager.CallInsert 0 1; Manager.CallInsert 900 2 ] |}).
Proof.
  destruct (X12_debounced_pass_rewrites Doc.PMNode treeEditor
              [ mkBreak 1 1123 0 (-1); mkBreak 2 2246 900 0 ]
              {| Manager.document := Doc.Branch Doc.DocRoot [Doc.HorizontalRule];
                 Manager.lastBreakCountRef := 0%nat;
                 Manager.console := [];
                 Manager.calls := [] |}
              (Doc.Branch Doc.DocRoot [Doc.HorizontalRule])) as [Hrun _].
  - simpl. lia.
  - reflexivity.
  - exact Hrun.
Defined.

(** X13.  Where [recalculate] runs to its end, it and the debounced pass
    are the same to the editor: started from the same state with a plan
    whose length differs from the recorded count, the debounced pass makes
    the same calls, leaves the same document and logs no error.  The two
    differ in the count only, which [recalculate] leaves alone. *)
Theorem X13_recalculate_agrees_with_debounced_pass :
  forall (D : Type) (E : Editor D) (breaks : list PageBreakPosition)
         (h h1 : Manager.Hook D),
    Manager.recalculate breaks h = (Manager.Completed, h1) ->
    List.length breaks <> Manager.lastBreakCountRef h ->
    exists h2,
      Manager.debouncedPass breaks h = (Manager.Completed, h2) /\
      Manager.document h2 = Manager.document h1 /\
      Manager.calls h2 = Manager.calls h1 /\
      failuresLogged (Manager.console h2) = failuresLogged (Manager.console h) /\
      Manager.lastBreakCountRef h2 = List.length breaks /\
      Manager.lastBreakCountRef h1 = Manager.lastBreakCountRef h.
Proof.
  intros D E breaks h h1 Hrec Hne.
  assert (Hkeep : Manager.lastBreakCountRef h1 = Manager.lastBreakCountRef h).
  { pose proof (ManagerFacts.keepsCount_recalculate breaks h) as Hk.
    rewrite Hrec in Hk. exact Hk. }
  unfold Manager.recalculate in Hrec.
  apply ManagerFacts.seq_completed in Hrec. destruct Hrec as (hm & Hrm & Hins).
  unfold Manager.debouncedPass.
  rewrite (proj2 (Nat.eqb_neq _ _) Hne). cbn [negb].
  unfold Manager.seq at 1. unfold Manager.log at 1. unfold Manager.seq at 1.
  unfold Manager.removeAll at 1, Manager.runChain at 1 in Hrm.
  unfold Manager.removeAll at 1, Manager.runChain at 1.
  cbn [Manager.document].
  destruct (runRemoveAllPageBreaks (Manager.document h)) as [d|]; [|discriminate].
  inversion Hrm; subst hm. clear Hrm.
  unfold Manager.seq at 1.
  match type of Hins with Manager.forEach _ _ ?hm = _ =>
    match goal with |- context [Manager.forEach _ breaks ?gm] =>
      destruct (ManagerMore.guarded_follows_unguarded breaks hm h1 gm
                  (conj eq_refl eq_refl) Hins)
        as (g1 & Hrun & [Hdoc Hcalls] & Hcons & Hlast) end end.
  rewrite Hrun. unfold Manager.setLastBreakCount.
  eexists. split; [reflexivity|].
  cbn [Manager.document Manager.calls Manager.console Manager.lastBreakCountRef] in *.
  split; [symmetry; exact Hdoc|]. split; [symmetry; exact Hcalls|].
  split; [|split; [reflexivity|exact Hkeep]].
  rewrite Hcons. unfold failuresLogged. rewrite filter_app, length_app.
  simpl. lia.
Qed.

(** X13 on the reference editor: one marker in front of a paragraph. *)
Lemma X13_recalculate_agrees_with_debounced_pass_witness :
  exists h2,
    Manager.debouncedPass [ mkBreak 1 1123 0 (-1) ]
      {| Manager.document := Doc.Branch Doc.DocRoot [Doc.Branch Doc.Paragraph []];
         Manager.lastBreakCountRef := 0%nat;
         Manager.console := [];
         Manager.calls := [] |} = (Manager.Completed, h2) /\
    Manager.document h2 =
      Doc.Branch Doc.DocRoot [Doc.PageBreak 1; Doc.Branch Doc.Paragraph []].
Proof.
  destruct (X13_recalculate_agrees_with_debounced_pass Doc.PMNode treeEditor
              [ mkBreak 1 1123 0 (-1) ]
              {| Manager.document := Doc.Branch Doc.DocRoot [Doc.Branch Doc.Paragraph []];
                 Manager.lastBreakCountRef := 0%nat;
                 Manager.console := [];
                 Manager.calls := [] |}
              {| Manager.document :=
                   Doc.Branch Doc.DocRoot [Doc.PageBreak 1; Doc.Branch Doc.Paragraph []];
                 Manager.lastBreakCountRef := 0%nat;
                 Manager.console := [];
                 Manager.calls := [ Manager.CallRemoveAll; Manager.CallInsert 0 1 ] |})
    as (h2 & Hrun & Hdoc & _).
  - reflexivity.
  - simpl. lia.
  - exists h2. split; [exact Hrun|exact Hdoc].
Defined.

(** X14.  [recalculate] asks for the removal and then for the planned
    insertions in plan order, each on the document the earlier ones have
    left.  Where every insertion succeeds it runs to its end on the
    resulting document.  The first insertion that throws ends it: the
    exception leaves [recalculate], the document is the one the earlier
    insertions have left, and no insertion planned after the throwing one
    is asked for.  A removal that throws ends it before any insertion.  In
    no case does it log or write the count. *)
Theorem X14_recalculate_calls :
  forall (D : Type) (E : Editor D) (breaks : list PageBreakPosition)
         (h : Manager.Hook D),
    (runRemoveAllPageBreaks (Manager.document h) = None ->
     Manager.recalculate breaks h =
       (Manager.Threw,
        {| Manager.document := Manager.document h;
           Manager.lastBreakCountRef := Manager.lastBreakCountRef h;
           Manager.console := Manager.console h;
           Manager.calls := Manager.calls h ++ [Manager.CallRemoveAll] |})) /\
    (forall d,
        runRemoveAllPageBreaks (Manager.document h) = Some d ->
        (forall dn,
            insertAll breaks d = Some dn ->
            Manager.recalculate breaks h =
              (Manager.Completed,
               {| Manager.document := dn;
                  Manager.lastBreakCountRef := Manager.lastBreakCountRef h;
                  Manager.console := Manager.console h;
                  Manager.calls :=
                    Manager.calls h ++
                    Manager.CallRemoveAll :: map insertCall breaks |})) /\
        (forall before b after dm,
            breaks = before ++ b :: after ->
            insertAll before d = Some dm ->
            runInsertContentAt (insertPos b) (pageNumber b) dm = None ->
            Manager.recalculate breaks h =
              (Manager.Threw,
               {| Manager.document := dm;
                  Manager.lastBreakCountRef := Manager.lastBreakCountRef h;
                  Manager.console := Manager.console h;
                  Manager.calls :=
                    Manager.calls h ++
                    Manager.CallRemoveAll :: map insertCall (before ++ [b]) |}))).
Proof.
  intros D E breaks h. split; [|intros d Hrm; split].
  - intros Hrm. unfold Manager.recalculate, Manager.seq.
    unfold Manager.removeAll at 1, Manager.runChain at 1. rewrite Hrm. reflexivity.
  - intros dn Hall. unfold Manager.recalculate, Manager.seq.
    unfold Manager.removeAll at 1, Manager.runChain at 1. rewrite Hrm.
    erewrite ManagerMore.unguarded_all; [|exact Hall].
    cbn [Manager.document Manager.lastBreakCountRef Manager.console Manager.calls].
    rewrite <- app_assoc. reflexivity.
  - intros before b after dm -> Hall Hfail.
    unfold Manager.recalculate, Manager.seq.
    unfold Manager.removeAll at 1, Manager.runChain at 1. rewrite Hrm.
    erewrite ManagerMore.unguarded_stops; [|exact Hall|exact Hfail].
    cbn [Manager.document Manager.lastBreakCountRef Manager.console Manager.calls].
    rewrite <- app_assoc. reflexivity.
Qed.

(** X14 on the reference editor: the second of three insertions is out of
    range, and the third is never asked for. *)
Lemma X14_recalculate_calls_witness :
  Manager.recalculate
    [ mkBreak 1 1123 0 (-1); mkBreak 2 2246 900 0; mkBreak 3 3369 1 0 ]
    {| Manager.document := Doc.Branch Doc.DocRoot [Doc.HorizontalRule];
       Manager.lastBreakCountRef := 0%nat;
       Manager.console := [];
       Manager.calls := [] |} =
  (Manager.Threw,
   {| Manager.document :=
        Doc.Branch Doc.DocRoot [Doc.PageBreak 1; Doc.HorizontalRule];
      Manager.lastBreakCountRef := 0%nat;
      Manager.console := [];
      Manager.calls :=
        [ Manager.CallRemoveAll; Manager.CallInsert 0 1; Manager.CallInsert 900 2 ] |}).
Proof.
  destruct (X14_recalculate_calls Doc.PMNode treeEditor
              [ mkBreak 1 1123 0 (-1); mkBreak 2 2246 900 0; mkBreak 3 3369 1 0 ]
              {| Manager.document := Doc.Branch Doc.DocRoot [Doc.HorizontalRule];
                 Manager.lastBreakCountRef := 0%nat;
                 Manager.console := [];
                 Manager.calls := [] |}) as [_ H].
  destruct (H (Doc.Branch Doc.DocRoot [Doc.HorizontalRule]) eq_refl) as [_ Hstop].
  apply (Hstop [mkBreak 1 1123 0 (-1)] (mkBreak 2 2246 900 0)
               [mkBreak 3 3369 1 0]
               (Doc.Branch Doc.DocRoot [Doc.PageBreak 1; Doc.HorizontalRule]));
    reflexivity.
Defined.

(* ================================================================== *)
(** * Properties of the debounce *)
(* ================================================================== *)

Module SchedulerFacts.
Import Scheduler.

Lemma clearCurrent_ref t : timeoutRef (clearCurrent t) = timeoutRef t.
Proof.
  unfold clearCurrent. destruct (timeoutRef t) eqn:Href; [|exact Href].
  unfold clearTimeout. cbn [timeoutRef]. exact Href.
Qed.

(** Clearing the timer of [timeoutRef] clears every timer the ref
    accounts for. *)
Lemma clearCurrent_empty t :
  (forall handle closure,
      In (handle, closure) (pendingTimers t) -> timeoutRef t = Some handle) ->
  pendingTimers (clearCurrent t) = [].
Proof.
  intros Hall. unfold clearCurrent.
  destruct (timeoutRef t) as [current|] eqn:Href.
  - unfold clearTimeout. cbn [pendingTimers].
    induction (pendingTimers t) as [|[hd cl] rest IH]; [reflexivity|].
    simpl. assert (Hhd : Some current = Some hd) by (apply (Hall hd cl); left; reflexivity).
    inversion Hhd; subst hd. rewrite Pos.eqb_refl. simpl.
    apply IH. intros hd' cl' Hin. apply (Hall hd' cl'). right. exact Hin.
  - destruct (pendingTimers t) as [|[hd cl] rest]; [reflexivity|].
    specialize (Hall hd cl (or_introl eq_refl)). discriminate Hall.
Qed.

Lemma tidy_refs m trigger :
  tidy m trigger ->
  forall handle closure,
    In (handle, closure) (pendingTimers (timers m)) ->
    timeoutRef (timers m) = Some handle.
Proof. intros (H & _) handle closure Hin. apply (H handle closure Hin). Qed.

(** Before the effect runs again nothing is pending: either the cleanup
    has just run, or no cleanup was registered and then no timer was. *)
Lemma nothing_pending_before_effect m trigger :
  tidy m trigger ->
  pendingTimers (if hasCleanup m then cleanup (timers m) else timers m) = [].
Proof.
  intros Htidy. destruct (hasCleanup m) eqn:Hc.
  - apply clearCurrent_empty. apply (tidy_refs m trigger Htidy).
  - destruct Htidy as (_ & _ & H3).
    destruct (pendingTimers (timers m)) as [|e rest]; [reflexivity|].
    rewrite H3 in Hc; [discriminate|discriminate].
Qed.

Lemma tidy_nothing_pending t c trigger :
  pendingTimers t = [] -> tidy {| timers := t; hasCleanup := c |} trigger.
Proof.
  intros Hnone. unfold tidy. cbn [timers hasCleanup]. rewrite Hnone.
  split; [intros ? ? []|]. split; [simpl; lia|]. intros H. contradiction.
Qed.

Lemma filter_length_le {A : Type} (f : A -> bool) l :
  (List.length (filter f l) <= List.length l)%nat.
Proof.
  induction l as [|a l IH]; simpl; [lia|]. destruct (f a); simpl; lia.
Qed.

(** Every event keeps the timers tidy. *)
Lemma step_tidy m ev trigger :
  tidy m trigger -> tidy (step m ev) (triggerAfter ev trigger).
Proof.
  intros Htidy. destruct ev as [editor autoInsert nodeHeights|handle| |].
  - pose proof (nothing_pending_before_effect m trigger Htidy) as Hnone.
    cbn [step triggerAfter].
    set (t := if hasCleanup m then cleanup (timers m) else timers m) in *.
    unfold effect.
    destruct editor, autoInsert; cbn [negb orb andb];
      try (apply tidy_nothing_pending; exact Hnone).
    assert (Hclear : pendingTimers (clearCurrent t) = []).
    { apply clearCurrent_empty. rewrite Hnone. intros ? ? []. }
    unfold setTimeout. unfold tidy. cbn [timers hasCleanup pendingTimers timeoutRef].
    rewrite Hclear. cbn [app List.length In].
    split; [|split; [lia|reflexivity]].
    intros hd cl [Heq|[]]. inversion Heq; subst. split; reflexivity.
  - cbn [step triggerAfter]. unfold timerFires.
    destruct (find (fun e => Pos.eqb (fst e) handle) (pendingTimers (timers m)));
      [|destruct m; exact Htidy].
    destruct Htidy as (H1 & H2 & H3).
    unfold tidy. cbn [snd timers hasCleanup clearTimeout pendingTimers timeoutRef].
    split; [|split].
    + intros hd cl Hin. apply filter_In in Hin. apply (H1 hd cl). apply Hin.
    + pose proof (filter_length_le (fun e => negb (Pos.eqb (fst e) handle))
                    (pendingTimers (timers m))). lia.
    + intros Hne. apply H3. intros Hnil. apply Hne. rewrite Hnil. reflexivity.
  - cbn [step triggerAfter]. apply tidy_nothing_pending.
    apply clearCurrent_empty. apply (tidy_refs m trigger Htidy).
  - cbn [step triggerAfter]. apply tidy_nothing_pending.
    apply (nothing_pending_before_effect m trigger Htidy).
Qed.

Lemma latestTrigger_step events :
  forall ev seen,
    latestTrigger (ev :: events) seen = latestTrigger events (triggerAfter ev seen).
Proof. intros [e a nh|hd| |] seen; reflexivity. Qed.

Lemma events_tidy events :
  forall m trigger,
    tidy m trigger ->
    tidy (fold_left step events m) (latestTrigger events trigger).
Proof.
  induction events as [|ev rest IH]; intros m trigger Htidy; [exact Htidy|].
  rewrite latestTrigger_step. simpl fold_left. apply IH. apply step_tidy. exact Htidy.
Qed.

Lemma run_tidy events : tidy (run events) (latestTrigger events None).
Proof.
  unfold run. apply events_tidy. apply tidy_nothing_pending. reflexivity.
Qed.

Lemma run_snoc events ev : run (events ++ [ev]) = step (run events) ev.
Proof. unfold run. rewrite fold_left_app. reflexivity. Qed.

End SchedulerFacts.

(** X16.  Whatever the sequence of dependency changes, timer callbacks,
    calls of [recalculate] and unmounts, the hook has at most one timer
    pending; it is the timer [timeoutRef] holds, and its callback plans
    from the [nodeHeights] of the latest dependency change (which had a
    non-null editor and [autoInsert] on): an older trigger never reaches
    the document. *)
Theorem X16_one_pending_reconciliation :
  forall events,
    let t := Scheduler.timers (Scheduler.run events) in
    (List.length (Scheduler.pendingTimers t) <= 1)%nat /\
    (forall handle closure,
        In (handle, closure) (Scheduler.pendingTimers t) ->
        Scheduler.timeoutRef t = Some handle /\
        Scheduler.latestTrigger events None = Some closure).
Proof.
  intros events t.
  destruct (SchedulerFacts.run_tidy events) as (H1 & H2 & _).
  split; [exact H2|exact H1].
Qed.

(** X16 after two triggers in a row: only the second one's timer is
    pending. *)
Lemma X16_one_pending_reconciliation_witness :
  Scheduler.latestTrigger
    [ Scheduler.DepsChanged true true [mkNodeHeight "paragraph" 10 0 0];
      Scheduler.DepsChanged true true [mkNodeHeight "paragraph" 20 0 0] ] None
  = Some [mkNodeHeight "paragraph" 20 0 0].
Proof.
  destruct (X16_one_pending_reconciliation
              [ Scheduler.DepsChanged true true [mkNodeHeight "paragraph" 10 0 0];
                Scheduler.DepsChanged true true [mkNodeHeight "paragraph" 20 0 0] ])
    as [_ H].
  apply (H 2%positive). left. reflexivity.
Defined.

(** X17.  Cancellation is complete: after an unmount, after the first
    statement of [recalculate], and after a dependency change with a null
    editor or with [autoInsert] off, no timer is pending; and a timer
    whose callback has run is not pending any more. *)
Theorem X17_cancellation :
  forall events,
    Scheduler.pendingTimers
      (Scheduler.timers (Scheduler.run (events ++ [Scheduler.Unmount]))) = [] /\
    Scheduler.pendingTimers
      (Scheduler.timers (Scheduler.run (events ++ [Scheduler.Recalculate]))) = [] /\
    (forall editor autoInsert nodeHeights,
        editor && autoInsert = false ->
        Scheduler.pendingTimers
          (Scheduler.timers
             (Scheduler.run
                (events ++ [Scheduler.DepsChanged editor autoInsert nodeHeights])))
        = []) /\
    (forall handle,
        fst (Scheduler.timerFires handle
               (Scheduler.timers
                  (Scheduler.run (events ++ [Scheduler.TimerFires handle]))))
        = None).
Proof.
  intros events.
  pose proof (SchedulerFacts.run_tidy events) as Htidy.
  split; [|split; [|split]].
  - rewrite SchedulerFacts.run_snoc. cbn [Scheduler.step Scheduler.timers].
    eapply SchedulerFacts.nothing_pending_before_effect. exact Htidy.
  - rewrite SchedulerFacts.run_snoc. cbn [Scheduler.step Scheduler.timers].
    apply SchedulerFacts.clearCurrent_empty.
    eapply SchedulerFacts.tidy_refs. exact Htidy.
  - intros editor autoInsert nodeHeights Hoff.
    pose proof (SchedulerFacts.step_tidy _
                  (Scheduler.DepsChanged editor autoInsert nodeHeights) _ Htidy)
      as (H1 & _).
    rewrite SchedulerFacts.run_snoc.
    cbn [Scheduler.triggerAfter] in H1. rewrite Hoff in H1.
    destruct (Scheduler.pendingTimers _) as [|[hd cl] rest]; [reflexivity|].
    destruct (H1 hd cl (or_introl eq_refl)) as [_ Hfalse]. discriminate Hfalse.
  - intros handle. rewrite SchedulerFacts.run_snoc.
    cbn [Scheduler.step Scheduler.timers].
    set (t := Scheduler.timers (Scheduler.run events)).
    assert (Hgone : forall t0,
               find (fun e => Pos.eqb (fst e) handle)
                    (Scheduler.pendingTimers (Scheduler.clearTimeout handle t0))
               = None).
    { intros t0. unfold Scheduler.clearTimeout. cbn [Scheduler.pendingTimers].
      induction (Scheduler.pendingTimers t0) as [|[hd cl] rest IH]; [reflexivity|].
      simpl. destruct (Pos.eqb hd handle) eqn:Heq; simpl; [exact IH|].
      rewrite Heq. exact IH. }
    unfold Scheduler.timerFires at 2.
    destruct (find (fun e => Pos.eqb (fst e) handle) (Scheduler.pendingTimers t))
      as [e|] eqn:Hfind; cbn [snd].
    + unfold Scheduler.timerFires. rewrite Hgone. reflexivity.
    + unfold Scheduler.timerFires. rewrite Hfind. reflexivity.
Qed.

(** X17 after a trigger that is then switched off. *)
Lemma X17_cancellation_witness :
  Scheduler.pendingTimers
    (Scheduler.timers
       (Scheduler.run
          ([ Scheduler.DepsChanged true true [mkNodeHeight "paragraph" 10 0 0] ]
           ++ [ Scheduler.DepsChanged true false [mkNodeHeight "paragraph" 10 0 0] ])))
  = [].
Proof.
  destruct (X17_cancellation
              [ Scheduler.DepsChanged true true [mkNodeHeight "paragraph" 10 0 0] ])
    as (_ & _ & Hoff & _).
  apply Hoff. reflexivity.
Defined.

(* ================================================================== *)
(** * The planner on page-sized content, and the whole callback *)
(* ================================================================== *)

Module PlannerPaged.

Lemma contiguousFrom_nth nodes :
  forall t i node,
    contiguousFrom t nodes = true ->
    nth_error nodes i = Some node ->
    0 <= height node /\
    (i = 0%nat -> top node = t) /\
    (forall next, nth_error nodes (S i) = Some next -> top next = nodeBottom node).
Proof.
  induction nodes as [|a rest IH]; intros t i node Hc Hnth;
    [destruct i; discriminate|].
  simpl in Hc. apply andb_prop in Hc. destruct Hc as [Hc Hrest].
  apply andb_prop in Hc. destruct Hc as [Htop Hh].
  apply Z.eqb_eq in Htop. apply Z.leb_le in Hh.
  destruct i as [|i].
  - simpl in Hnth. inversion Hnth; subst a. split; [exact Hh|].
    split; [intros _; exact Htop|].
    intros next Hnext. simpl in Hnext.
    destruct rest as [|b rest']; [discriminate|].
    simpl in Hnext. inversion Hnext; subst b.
    simpl in Hrest. apply andb_prop in Hrest. destruct Hrest as [Hb _].
    apply andb_prop in Hb. destruct Hb as [Hb _]. apply Z.eqb_eq in Hb.
    unfold nodeBottom. lia.
  - simpl in Hnth. destruct (IH _ _ _ Hrest Hnth) as (H1 & _ & H3).
    split; [exact H1|]. split; [intros Hi; discriminate Hi|exact H3].
Qed.

Lemma heightsAtMost_nth pageHeight nodes i node :
  heightsAtMost pageHeight nodes = true ->
  nth_error nodes i = Some node ->
  height node <= pageHeight.
Proof.
  intros Hall Hnth. unfold heightsAtMost in Hall.
  rewrite forallb_forall in Hall. apply Z.leb_le. apply Hall.
  eapply nth_error_In. exact Hnth.
Qed.

End PlannerPaged.

(** X18.  On a contiguous list none of whose nodes is taller than the
    page, every planned break falls between two consecutive nodes: the
    node before it ends at or before the boundary, the node after it
    reaches strictly beyond the boundary and is the one the marker is to
    be inserted in front of.  In particular [afterNodeIndex] is then a valid
    index and no insert position is a position inside a node. *)
Theorem X18_breaks_between_nodes :
  forall nodes pageHeight plan,
    contiguous nodes = true ->
    heightsAtMost pageHeight nodes = true ->
    returns nodes pageHeight plan ->
    Forall (fun b => exists i prev node,
                afterNodeIndex b = Z.of_nat i /\
                nth_error nodes i = Some prev /\
                nth_error nodes (S i) = Some node /\
                insertPos b = pos node /\
                nodeBottom prev <= position b < nodeBottom node) plan.
Proof.
  intros nodes pageHeight plan Hc Hmax [fuel Hret].
  unfold calculatePageBreaks in Hret.
  destruct (forEachNode fuel pageHeight nodes 0 (initLocals pageHeight))
    as [st'|] eqn:Hrun; [|discriminate].
  simpl in Hret. inversion Hret; subst plan. clear Hret.
  set (Phi := fun b => exists i prev node,
                afterNodeIndex b = Z.of_nat i /\
                nth_error nodes i = Some prev /\
                nth_error nodes (S i) = Some node /\
                insertPos b = pos node /\
                nodeBottom prev <= position b < nodeBottom node).
  assert (Hinv : pageHeight <= currentPageEnd st' /\
                 (forall node, nth_error nodes (List.length nodes) = Some node ->
                               top node <= currentPageEnd st') /\
                 Forall Phi (breaks st')).
  { apply (forEachNode_rule pageHeight
             (fun i s => pageHeight <= currentPageEnd s /\
                         (forall node, nth_error nodes i = Some node ->
                                       top node <= currentPageEnd s) /\
                         Forall Phi (breaks s))
             nodes fuel) with (st := initLocals pageHeight); [| |exact Hrun].
    - intros i node st st1 Hnth (Hph & Htop & Hall) Hv.
      destruct (PlannerPaged.contiguousFrom_nth nodes 0 i node Hc Hnth)
        as (Hh & Hfirst & Hnext).
      pose proof (PlannerPaged.heightsAtMost_nth _ _ _ _ Hmax Hnth) as Hle.
      specialize (Htop node Hnth).
      unfold visitNode in Hv.
      destruct (Z.gtb_spec (nodeBottom node) (currentPageEnd st)) as [Hgt|Hng].
      + apply whileTaller_not_entered in Hv;
          [|simpl; unfold nodeBottom in *; lia].
        subst st1. cbn [pushBreak currentPageEnd breaks].
        split; [lia|]. split.
        * intros next Hn. rewrite (Hnext next Hn). unfold nodeBottom in *. lia.
        * apply Forall_app. split; [exact Hall|]. constructor; [|constructor].
          destruct i as [|i].
          -- exfalso. specialize (Hfirst eq_refl). unfold nodeBottom in *. lia.
          -- destruct (nth_error nodes i) as [prev|] eqn:Hprev.
             ++ exists i, prev, node. cbn [afterNodeIndex insertPos position].
                split; [lia|]. split; [exact Hprev|]. split; [exact Hnth|].
                split; [reflexivity|].
                destruct (PlannerPaged.contiguousFrom_nth nodes 0 i prev Hc Hprev)
                  as (_ & _ & Hn).
                rewrite <- (Hn node Hnth). lia.
             ++ exfalso. apply nth_error_None in Hprev.
                assert (Hsome : nth_error nodes (S i) <> None) by congruence.
                apply nth_error_Some in Hsome. lia.
      + inversion Hv; subst st1. split; [exact Hph|]. split; [|exact Hall].
        intros next Hn. rewrite (Hnext next Hn). exact Hng.
    - cbn [initLocals currentPageEnd breaks]. split; [lia|]. split; [|constructor].
      intros node Hnth.
      destruct (PlannerPaged.contiguousFrom_nth nodes 0 0%nat node Hc Hnth)
        as (Hh & Hfirst & _).
      pose proof (PlannerPaged.heightsAtMost_nth _ _ _ _ Hmax Hnth) as Hle.
      rewrite (Hfirst eq_refl). lia. }
  apply Hinv.
Qed.

(** X18 on three nodes of 600 pixels and a page of 1123. *)
Lemma X18_breaks_between_nodes_witness :
  Forall (fun b => exists i prev node,
              afterNodeIndex b = Z.of_nat i /\
              nth_error [ mkNodeHeight "paragraph" 600 0 0;
                          mkNodeHeight "paragraph" 600 600 5;
                          mkNodeHeight "paragraph" 600 1200 9 ] i = Some prev /\
              nth_error [ mkNodeHeight "paragraph" 600 0 0;
                          mkNodeHeight "paragraph" 600 600 5;
                          mkNodeHeight "paragraph" 600 1200 9 ] (S i) = Some node /\
              insertPos b = pos node /\
              nodeBottom prev <= position b < nodeBottom node)
         [ mkBreak 1 1123 5 0 ].
Proof.
  apply (X18_breaks_between_nodes
           [ mkNodeHeight "paragraph" 600 0 0;
             mkNodeHeight "paragraph" 600 600 5;
             mkNodeHeight "paragraph" 600 1200 9 ] 1123).
  - reflexivity.
  - reflexivity.
  - exists 1%nat. reflexivity.
Defined.

(** X19.  The callback of the debounce timer cannot hang and cannot
    throw on a document whose markers can be removed: for every metrics
    snapshot the planner returns at the default page height and the pass
    runs to its end, in one way only. *)
Theorem X19_debounced_callback_completes :
  forall (D : Type) (E : Editor D) (heightMetrics : EditorHeightMetrics)
         (h : Manager.Hook D) (d : D),
    runRemoveAllPageBreaks (Manager.document h) = Some d ->
    exists h',
      Manager.debouncedCallback heightMetrics h (Manager.Completed, h') /\
      (forall out, Manager.debouncedCallback heightMetrics h out ->
                   out = (Manager.Completed, h')).
Proof.
  intros D E heightMetrics h d Hrm.
  destruct (calculatePageBreaks_terminates (nodeHeights heightMetrics) PAGE_HEIGHT
              ltac:(reflexivity)) as [plan Hplan].
  destruct (ManagerFacts.debouncedPass_completes plan h d Hrm) as (h' & Hrun).
  exists h'. split.
  - exists plan. split; [exact Hplan|symmetry; exact Hrun].
  - intros out (plan' & Hplan' & Hout).
    rewrite (returns_deterministic _ _ _ _ Hplan' Hplan) in Hout.
    rewrite Hout. exact Hrun.
Qed.

(** X19 on the reference editor. *)
Lemma X19_debounced_callback_completes_witness :
  exists h',
    Manager.debouncedCallback
      {| contentHeight := 3000; pageCount := 3; isOverflowing := true;
         overflowAmount := 1877;
         nodeHeights := [mkNodeHeight "paragraph" 3000 0 0] |}
      {| Manager.document := Doc.Branch Doc.DocRoot [Doc.Branch Doc.Paragraph []];
         Manager.lastBreakCountRef := 0%nat;
         Manager.console := [];
         Manager.calls := [] |}
      (Manager.Completed, h').
Proof.
  destruct (X19_debounced_callback_completes Doc.PMNode treeEditor
              {| contentHeight := 3000; pageCount := 3; isOverflowing := true;
                 overflowAmount := 1877;
                 nodeHeights := [mkNodeHeight "paragraph" 3000 0 0] |}
              {| Manager.document := Doc.Branch Doc.DocRoot [Doc.Branch Doc.Paragraph []];
                 Manager.lastBreakCountRef := 0%nat;
                 Manager.console := [];
                 Manager.calls := [] |}
              (Doc.Branch Doc.DocRoot [Doc.Branch Doc.Paragraph []]))
    as (h' & Hrun & _).
  - reflexivity.
  - exists h'. exact Hrun.
Defined.
